(** * Similar-products ranking engine: a shallow embedding

    Embeds [app/services/product_similarity.py] (tokenizer, Jaccard and BM25
    name scorers, price tiers, composite score) and the ranking method
    [SimilarProductsService.find_similar_products] of
    [app/services/similar_products_service.py].  Around them it embeds
    the orchestration: [enrich_profile] and [cleanup_profile] of the same
    service, [update_profile_properties], [add_similar_products] and
    [remove_similar_products] of [app/clients/klaviyo_client.py], and
    [validate_webhook_secret] of [app/utils/validators.py].

    Conventions of the embedding
    - Python [float] is idealised as a real number ([R]); rounding is not
      modelled.  [int] is [Z].
    - Python [str] is [string]; the character classes of the regular
      expressions ([\d], [\s], [\w]) and [str.lower] are their restrictions
      to ASCII.
    - [Set[str]] is [gset string], [Dict[str, float]] is [gmap string R],
      [Counter] is [gmap string nat] with absent keys counting 0.
    - Raising is explicit: a computation that may raise returns [result].
      Division raises [ZeroDivisionError] on a zero divisor, [math.log]
      raises [ValueError] outside its domain.
    - Logging calls are omitted: they do not influence returned values.
    - Above the scoring layer a computation returns [io]: the requests it
      issues to change the remote state, and its value or exception.
      Values of JSON documents are [json]. *)

From Stdlib Require Import Reals Lra Lia ZArith String Ascii List.
From Stdlib Require Import Sorting.Sorted Sorting.Permutation.
From stdpp Require Import gmap strings list fin_maps.

Local Open Scope string_scope.

(** ** Exceptions and the error monad *)

Inductive exn : Type :=
| ZeroDivisionError
| ValueError
| EcommerceAPIError (msg : string).

Inductive result (A : Type) : Type :=
| Ok (a : A)
| Raise (e : exn).

Arguments Ok {A} a.
Arguments Raise {A} e.

#[global] Instance result_ret : MRet result := fun A a => Ok a.

#[global] Instance result_bind : MBind result := fun A B k m =>
  match m with
  | Ok a => k a
  | Raise e => Raise e
  end.

(** [try: body / except Exception as e: handler e] *)
Definition try_except {A : Type} (body : result A) (handler : exn -> result A)
  : result A :=
  match body with
  | Ok a => Ok a
  | Raise e => handler e
  end.

Definition raises {A : Type} (m : result A) : Prop :=
  exists e, m = Raise e.

(** ** Partial arithmetic of Python floats *)

#[global] Instance R_eq_dec : EqDecision R := Req_dec_T.
#[global] Instance Rlt_decision (x y : R) : Decision (x < y)%R := Rlt_dec x y.
#[global] Instance Rle_decision (x y : R) : Decision (x <= y)%R := Rle_dec x y.
#[global] Instance Rgt_decision (x y : R) : Decision (x > y)%R := Rgt_dec x y.

(** [x / y] *)
Definition pydiv (x y : R) : result R :=
  if decide (y = 0%R) then Raise ZeroDivisionError else Ok (x / y)%R.

(** [math.log(x)] *)
Definition pylog (x : R) : result R :=
  if decide (0 < x)%R then Ok (ln x) else Raise ValueError.

(** [max(x, y)] and [min(x, y)] on floats are [Rmax] and [Rmin]. *)

(** ** The product record ([app/adapters/base.py]) *)

Record Product : Type := mkProduct {
  id : string;
  name : string;
  category_id : string;
  quantity : Z;
  price : option R;
  manufacturer_name : option string;
  name_secondary : option string;
  sku : option string
}.

(** Truthiness of an [Optional[str]]: present and non-empty. *)
Definition truthy_str (o : option string) : bool :=
  match o with
  | Some s => negb (String.eqb s "")
  | None => false
  end.

(** Truthiness of an [Optional[float]]: present and non-zero. *)
Definition truthy_float (o : option R) : bool :=
  match o with
  | Some x => bool_decide (x <> 0%R)
  | None => false
  end.

(** The value read from an optional field that has been tested truthy. *)
Definition str_of (o : option string) : string := default "" o.
Definition float_of (o : option R) : R := default 0%R o.

(** ** Tokenizer *)

Module Tokenizer.

Definition code (c : ascii) : nat := nat_of_ascii c.

(** [\d] *)
Definition is_digit (c : ascii) : bool :=
  (48 <=? code c)%nat && (code c <=? 57)%nat.

(** [\s]: tab, LF, VT, FF, CR, FS, GS, RS, US and space *)
Definition is_space (c : ascii) : bool :=
  ((9 <=? code c)%nat && (code c <=? 13)%nat)
  || ((28 <=? code c)%nat && (code c <=? 32)%nat).

Definition is_upper (c : ascii) : bool :=
  (65 <=? code c)%nat && (code c <=? 90)%nat.

Definition is_lower (c : ascii) : bool :=
  (97 <=? code c)%nat && (code c <=? 122)%nat.

(** [\w] *)
Definition is_word (c : ascii) : bool :=
  is_digit c || is_upper c || is_lower c || (code c =? 95)%nat.

Definition lower_char (c : ascii) : ascii :=
  if is_upper c then ascii_of_nat (code c + 32) else c.

(** [str.lower] *)
Definition lower (s : string) : string :=
  string_of_list_ascii (map lower_char (list_ascii_of_string s)).

(** *** The quantity pattern
    [\d+\s?(g|kg|ml|l|mg|szt|pcs|oz|lb)(?:\s|$)]

    Each piece maps the remaining input to the remainders of its
    possible matches, in the order a backtracking matcher tries them. *)

(** [\d+], greedy *)
Fixpoint re_digits (s : list ascii) : list (list ascii) :=
  match s with
  | c :: s' => if is_digit c then re_digits s' ++ [s'] else []
  | [] => []
  end.

(** [\s?], greedy *)
Definition re_opt_space (s : list ascii) : list (list ascii) :=
  match s with
  | c :: s' => if is_space c then [s'; s] else [s]
  | [] => [s]
  end.

Fixpoint strip_prefix (u s : list ascii) : option (list ascii) :=
  match u, s with
  | [], _ => Some s
  | a :: u', c :: s' => if Ascii.eqb a c then strip_prefix u' s' else None
  | _ :: _, [] => None
  end.

Definition UNITS : list string :=
  ["g"; "kg"; "ml"; "l"; "mg"; "szt"; "pcs"; "oz"; "lb"].

(** [(g|kg|ml|l|mg|szt|pcs|oz|lb)], alternatives in order *)
Definition re_unit (s : list ascii) : list (list ascii) :=
  flat_map
    (fun u => match strip_prefix (list_ascii_of_string u) s with
              | Some r => [r]
              | None => []
              end)
    UNITS.

(** [$] matches at the end and before a final newline. *)
Definition at_end (s : list ascii) : bool :=
  match s with
  | [] => true
  | [c] => (code c =? 10)%nat
  | _ => false
  end.

(** [(?:\s|$)] *)
Definition re_space_or_end (s : list ascii) : list (list ascii) :=
  match s with
  | c :: s' => if is_space c then [s'] else []
  | [] => []
  end ++ (if at_end s then [s] else []).

(** The remainder after the first successful match at the head of [s]. *)
Definition match_quantity (s : list ascii) : option (list ascii) :=
  head (flat_map re_space_or_end
          (flat_map re_unit
             (flat_map re_opt_space (re_digits s)))).

(** [re.sub(pattern, ' ', text)]: leftmost non-overlapping matches are
    replaced by one space; [skip] counts the characters of the current
    match that are still to be dropped. *)
Fixpoint re_sub_quantity (skip : nat) (s : list ascii) : list ascii :=
  match s with
  | [] => []
  | c :: s' =>
      match skip with
      | S k => re_sub_quantity k s'
      | O =>
          match match_quantity s with
          | Some r => " "%char :: re_sub_quantity (length s' - length r) s'
          | None => c :: re_sub_quantity 0 s'
          end
      end
  end.

(** [re.findall(r'\w+', text)]; [cur] is the run being read, reversed. *)
Fixpoint findall_words (cur : list ascii) (s : list ascii) : list string :=
  match s with
  | [] =>
      match cur with
      | [] => []
      | _ => [string_of_list_ascii (rev cur)]
      end
  | c :: s' =>
      if is_word c then findall_words (c :: cur) s'
      else
        match cur with
        | [] => findall_words [] s'
        | _ => string_of_list_ascii (rev cur) :: findall_words [] s'
        end
  end.

End Tokenizer.

Definition STOP_WORDS : gset string :=
  list_to_set
    [ "the"; "and"; "for"; "with"; "of"; "in"; "on"; "at"; "a"; "an";
      "pack"; "mix"; "set"; "piece"; "pieces"; "bag"; "box";
      "i"; "na"; "do"; "z"; "w"; "o"; "dla"; "po"; "ze"; "od" ].

Definition _tokenize_product_name (name : string) : gset string :=
  if String.eqb name "" then ∅
  else
    let text := Tokenizer.lower name in
    let text := Tokenizer.re_sub_quantity 0 (list_ascii_of_string text) in
    let words := Tokenizer.findall_words [] text in
    list_to_set
      (filter (fun word => (word ∉ STOP_WORDS) /\ (3 <= String.length word)%nat)
              words).

(** ** Name similarity without a corpus: Jaccard *)

Definition _jaccard_similarity (set1 set2 : gset string) : result R :=
  if bool_decide (set1 = ∅) || bool_decide (set2 = ∅) then mret 0%R
  else
    let intersection := set1 ∩ set2 in
    let union := set1 ∪ set2 in
    if bool_decide (union <> ∅)
    then pydiv (INR (size intersection)) (INR (size union))
    else mret 0%R.

Definition _calculate_name_similarity (original candidate : Product)
  : result R :=
  let orig_tokens_primary := _tokenize_product_name (name original) in
  let cand_tokens_primary := _tokenize_product_name (name candidate) in
  similarity_primary ← _jaccard_similarity orig_tokens_primary cand_tokens_primary;
  if truthy_str (name_secondary original) && truthy_str (name_secondary candidate)
  then
    let orig_tokens_secondary :=
      _tokenize_product_name (str_of (name_secondary original)) in
    let cand_tokens_secondary :=
      _tokenize_product_name (str_of (name_secondary candidate)) in
    similarity_secondary ←
      _jaccard_similarity orig_tokens_secondary cand_tokens_secondary;
    mret (Rmax similarity_primary similarity_secondary)
  else mret similarity_primary.

(** ** Price proximity *)

Definition _calculate_price_similarity (price1 price2 : R) : result R :=
  price_diff_pct ← pydiv (Rabs (price1 - price2)) price1;
  if decide (price_diff_pct <= 0.20)%R then mret 1.0%R
  else if decide (price_diff_pct <= 0.50)%R then mret 0.5%R
  else mret 0.2%R.

(** ** Composite score without a corpus *)

Definition calculate_product_similarity (original candidate : Product)
  : result R :=
  let score := 0.0%R in
  name_score ← _calculate_name_similarity original candidate;
  let score := (score + name_score * 0.60)%R in
  score ←
    (if truthy_float (price original) && truthy_float (price candidate)
        && bool_decide (float_of (price original) > 0)%R
     then
       price_score ← _calculate_price_similarity
                       (float_of (price original)) (float_of (price candidate));
       mret (score + price_score * 0.30)%R
     else mret score);
  let score :=
    if truthy_str (manufacturer_name original)
       && truthy_str (manufacturer_name candidate)
       && String.eqb (Tokenizer.lower (str_of (manufacturer_name original)))
                     (Tokenizer.lower (str_of (manufacturer_name candidate)))
    then (score + 0.10)%R
    else score in
  mret score.

(** ** BM25 *)

(** One pass of [for term in doc: doc_freq[term] += 1]. *)
Definition count_terms (doc_freq : gmap string nat) (doc : gset string)
  : gmap string nat :=
  set_fold (fun term acc => <[term := S (default 0%nat (acc !! term))]> acc)
           doc_freq doc.

(** [math.log((total_docs - df + 0.5) / (df + 0.5) + 1.0)] *)
Definition idf_value (total_docs df : nat) : result R :=
  q ← pydiv (INR total_docs - INR df + 0.5)%R (INR df + 0.5)%R;
  pylog (q + 1.0)%R.

Definition _calculate_bm25_idf (documents : list (gset string))
  : result (gmap string R) :=
  match documents with
  | [] => mret ∅
  | _ =>
      let total_docs := length documents in
      let doc_freq := foldl count_terms ∅ documents in
      map_fold
        (fun term df acc =>
           idf_scores ← acc;
           v ← idf_value total_docs df;
           mret (<[term := v]> idf_scores))
        (mret ∅) doc_freq
  end.

(** Body of the scoring loop of [_calculate_bm25_score]: one query term. *)
Definition bm25_score_step (doc_tokens : gset string)
    (idf_scores : gmap string R) (avgdl k1 b : R)
    (term : string) (acc : result R) : result R :=
  score ← acc;
  match idf_scores !! term with
  | None => mret score
  | Some idf =>
      let doc_length := INR (size doc_tokens) in
      let tf := if bool_decide (term ∈ doc_tokens) then 1.0%R else 0.0%R in
      if decide (tf = 0.0%R) then mret score
      else
        let numerator := (tf * (k1 + 1.0))%R in
        r ← pydiv doc_length avgdl;
        let denominator := (tf + k1 * (1.0 - b + b * r))%R in
        q ← pydiv numerator denominator;
        mret (score + idf * q)%R
  end.

(** Body of the normalisation loop of [_calculate_bm25_score]. *)
Definition bm25_max_score_step (doc_tokens : gset string)
    (idf_scores : gmap string R) (avgdl k1 b : R)
    (term : string) (acc : result R) : result R :=
  max_score ← acc;
  match idf_scores !! term with
  | Some idf =>
      let doc_length := INR (size doc_tokens) in
      r ← pydiv doc_length avgdl;
      q ← pydiv (k1 + 1.0)%R (1.0 + k1 * (1.0 - b + b * r))%R;
      mret (max_score + idf * q)%R
  | None => mret max_score
  end.

Definition _calculate_bm25_score
    (query_tokens doc_tokens : gset string)
    (idf_scores : gmap string R) (avgdl : R) (k1 b : R) : result R :=
  if bool_decide (query_tokens = ∅) || bool_decide (doc_tokens = ∅)
  then mret 0.0%R
  else
    score ← set_fold (bm25_score_step doc_tokens idf_scores avgdl k1 b)
                     (mret 0.0%R) query_tokens;
    max_score ← set_fold (bm25_max_score_step doc_tokens idf_scores avgdl k1 b)
                         (mret 0.0%R) query_tokens;
    score ← (if decide (max_score > 0.0)%R
             then pydiv score max_score
             else mret score);
    mret (Rmin score 1.0).

(** The corpus of [calculate_name_similarity_with_context]: the names of
    [original], then those of every product of [all_products] whose id is
    not the id of [original]. *)
Definition corpus_documents (original : Product) (all_products : list Product)
  : list (gset string) :=
  ([_tokenize_product_name (name original)]
   ++ (if truthy_str (name_secondary original)
       then [_tokenize_product_name (str_of (name_secondary original))]
       else []))
  ++ flat_map
       (fun p =>
          if String.eqb (id p) (id original) then []
          else
            _tokenize_product_name (name p)
            :: (if truthy_str (name_secondary p)
                then [_tokenize_product_name (str_of (name_secondary p))]
                else []))
       all_products.

(** [sum(len(doc) for doc in documents) / len(documents) if documents else 1.0] *)
Definition average_doc_length (documents : list (gset string)) : result R :=
  match documents with
  | [] => mret 1.0%R
  | _ => pydiv (INR (sum_list (size <$> documents))) (INR (length documents))
  end.

Definition calculate_name_similarity_with_context
    (original candidate : Product) (all_products : list Product) : result R :=
  let documents := corpus_documents original all_products in
  idf_scores ← _calculate_bm25_idf documents;
  avgdl ← average_doc_length documents;
  let orig_tokens := _tokenize_product_name (name original) in
  let cand_tokens := _tokenize_product_name (name candidate) in
  similarity_primary ←
    _calculate_bm25_score orig_tokens cand_tokens idf_scores avgdl 1.5 0.75;
  if truthy_str (name_secondary original) && truthy_str (name_secondary candidate)
  then
    let orig_tokens_sec :=
      _tokenize_product_name (str_of (name_secondary original)) in
    let cand_tokens_sec :=
      _tokenize_product_name (str_of (name_secondary candidate)) in
    similarity_secondary ←
      _calculate_bm25_score orig_tokens_sec cand_tokens_sec idf_scores avgdl
                            1.5 0.75;
    mret (Rmax similarity_primary similarity_secondary)
  else mret similarity_primary.

(** ** Composite score against a corpus *)

Definition positive_price (o : option R) : bool :=
  match o with
  | Some p => bool_decide (p > 0)%R
  | None => false
  end.

(** Modelled from the spec: [calculate_similarity_with_context], the scorer
    that [similar_products_service.py] imports from
    [app.services.product_similarity] and calls with the filtered pool as
    [all_products]; that module does not define it.  Section 4.4 of the
    spec gives it as the sum of three weighted contributions: the BM25 name
    score (weight 0.60, here the source's
    [calculate_name_similarity_with_context]), the price tier (weight 0.30,
    only if both products have a positive price, here the source's
    [_calculate_price_similarity]) and the manufacturer bonus (0.10 if both
    names are non-empty and match case-insensitively). *)
Definition calculate_similarity_with_context
    (original candidate : Product) (all_products : list Product) : result R :=
  name_score ←
    calculate_name_similarity_with_context original candidate all_products;
  let score := (name_score * 0.60)%R in
  score ←
    (if positive_price (price original) && positive_price (price candidate)
     then
       price_score ← _calculate_price_similarity
                       (float_of (price original)) (float_of (price candidate));
       mret (score + price_score * 0.30)%R
     else mret score);
  let score :=
    if truthy_str (manufacturer_name original)
       && truthy_str (manufacturer_name candidate)
       && String.eqb (Tokenizer.lower (str_of (manufacturer_name original)))
                     (Tokenizer.lower (str_of (manufacturer_name candidate)))
    then (score + 0.10)%R
    else score in
  mret score.

(** ** The ranker *)

(** [list.sort(key=..., reverse=True)] is the language's stable sort: the
    result is in descending key order and elements with equal keys keep
    their original order.  It is embedded as a stable insertion sort. *)
Fixpoint insert_desc {A : Type} (key : A -> R) (x : A) (l : list A) : list A :=
  match l with
  | [] => [x]
  | y :: l' =>
      if decide (key x < key y)%R then y :: insert_desc key x l'
      else x :: l
  end.

Definition sort_reverse {A : Type} (key : A -> R) (l : list A) : list A :=
  foldr (insert_desc key) [] l.

(** [l[:n]] *)
Definition slice_to {A : Type} (l : list A) (n : Z) : list A :=
  if (0 <=? n)%Z then take (Z.to_nat n) l
  else take (length l - Z.to_nat (- n)) l.

Record EcommerceAdapter : Type := mkAdapter {
  get_products_by_category : string -> Z -> result (list Product)
}.

Record SimilarProductsService : Type := mkService {
  ecommerce_adapter : EcommerceAdapter;
  limit : Z
}.

(** The filter of [find_similar_products]: not the original, in stock. *)
Definition eligible (original p : Product) : Prop :=
  id p <> id original /\ (quantity p > 0)%Z.

#[global] Instance eligible_dec original p : Decision (eligible original p).
Proof. unfold eligible. apply _. Defined.

Section Ranker.

(** The scorer the service imports; see [calculate_similarity_with_context]. *)
Variable scorer : Product -> Product -> list Product -> result R.

(** The scoring loop. *)
Definition score_candidates (original_product : Product)
    (candidates : list Product) : result (list (R * Product)) :=
  mapM (fun candidate =>
          score ← scorer original_product candidate candidates;
          mret (score, candidate))
       candidates.

(** The body of the [try] block. *)
Definition find_similar_products_body
    (self : SimilarProductsService) (original_product : Product)
  : result (list string) :=
  candidates ← get_products_by_category (ecommerce_adapter self)
                 (category_id original_product) 100;
  let candidates := filter (eligible original_product) candidates in
  match candidates with
  | [] => mret []
  | _ =>
      scored ← score_candidates original_product candidates;
      let scored := sort_reverse fst scored in
      mret ((fun sp => id (snd sp)) <$> slice_to scored (limit self))
  end.

Definition find_similar_products
    (self : SimilarProductsService) (original_product : Product)
  : result (list string) :=
  try_except (find_similar_products_body self original_product)
             (fun e => mret []).

End Ranker.

(** ** Auxiliary notions used to state the properties *)

(** The three conditions of the composite scores, by name. *)
Definition price_guard (original candidate : Product) : bool :=
  truthy_float (price original) && truthy_float (price candidate)
  && bool_decide (float_of (price original) > 0)%R.

Definition manufacturer_match (original candidate : Product) : bool :=
  truthy_str (manufacturer_name original)
  && truthy_str (manufacturer_name candidate)
  && String.eqb (Tokenizer.lower (str_of (manufacturer_name original)))
                (Tokenizer.lower (str_of (manufacturer_name candidate))).

(** The tier of a relative price difference, as
    [_calculate_price_similarity] selects it. *)
Definition price_tier (d : R) : R :=
  if decide (d <= 0.20)%R then 1.0%R
  else if decide (d <= 0.50)%R then 0.5%R
  else 0.2%R.

(** A product with its names erased, and one with its price erased. *)
Definition without_names (p : Product) : Product :=
  mkProduct (id p) "" (category_id p) (quantity p) (price p)
            (manufacturer_name p) None (sku p).

Definition without_price (p : Product) : Product :=
  mkProduct (id p) (name p) (category_id p) (quantity p) None
            (manufacturer_name p) (name_secondary p) (sku p).

(** Number of documents that contain [t]. *)
Definition doc_count (t : string) (documents : list (gset string)) : nat :=
  length (filter (fun doc => t ∈ doc) documents).

(** The idf weight as a real function of the corpus size and the count. *)
Definition idf_weight (total_docs df : nat) : R :=
  ln ((INR total_docs - INR df + 0.5) / (INR df + 0.5) + 1.0).

(** A list in descending order of [key]. *)
Definition descending {A : Type} (key : A -> R) (l : list A) : Prop :=
  StronglySorted (fun a b => (key b <= key a)%R) l.

(** The three ways [find_similar_products] ends: an exception is caught,
    the filtered pool is empty, or the ranking is returned. *)
Inductive ranker_outcome
    (scorer : Product -> Product -> list Product -> result R)
    (self : SimilarProductsService)
    (original : Product) (ids : list string) : Prop :=
| outcome_caught (e : exn) :
    find_similar_products_body scorer self original = Raise e ->
    ids = [] ->
    ranker_outcome scorer self original ids
| outcome_empty_pool (pool : list Product) :
    get_products_by_category (ecommerce_adapter self)
      (category_id original) 100 = Ok pool ->
    filter (eligible original) pool = [] ->
    ids = [] ->
    ranker_outcome scorer self original ids
| outcome_ranked (pool : list Product) (scored : list (R * Product)) :
    get_products_by_category (ecommerce_adapter self)
      (category_id original) 100 = Ok pool ->
    filter (eligible original) pool <> [] ->
    score_candidates scorer original (filter (eligible original) pool)
    = Ok scored ->
    ids = (fun sp => id (snd sp))
            <$> slice_to (sort_reverse fst scored) (limit self) ->
    ranker_outcome scorer self original ids.

(** ** Sample data *)

Module Examples.

Definition reference : Product :=
  mkProduct "X" "Gluten-Free Cookie Mix" "5" 0 (Some 10%R) None None None.

Definition cookie_mix : Product :=
  mkProduct "1" "Gluten-Free Cookie Mix" "5" 10 (Some 12%R) None None None.

Definition sugar_cookie : Product :=
  mkProduct "2" "Sugar Cookie Mix" "5" 5 (Some 9%R) None None None.

Definition sold_out : Product :=
  mkProduct "3" "Chocolate Cake Mix" "5" 0 (Some 11%R) None None None.

(** A candidate with a negative price. *)
Definition refund : Product :=
  mkProduct "4" "Soap" "5" 3 (Some (-5)%R) None None None.

Definition pool : list Product :=
  [reference; cookie_mix; sold_out; sugar_cookie].

Definition documents : list (gset string) :=
  [ {[ "keto"; "cookie" ]}; {[ "cookie" ]}; {[ "cake" ]} ].

(** A service whose adapter answers with [pool], and one whose adapter
    raises. *)
Definition service : SimilarProductsService :=
  mkService (mkAdapter (fun _ _ => Ok pool)) 6.

Definition failing_service : SimilarProductsService :=
  mkService (mkAdapter (fun _ _ => Raise (EcommerceAPIError "timeout"))) 6.

(** A service that is asked for no ids at all. *)
Definition service_limit_0 : SimilarProductsService :=
  mkService (mkAdapter (fun _ _ => Ok pool)) 0.

End Examples.

(** The end-to-end example of the specification (section 8). *)
Module EndToEnd.

Definition reference : Product :=
  mkProduct "X" "Gluten-Free Cookie Mix" "5" 0 (Some 10%R) None None None.
Definition c1 : Product :=
  mkProduct "1" "Gluten-Free Cookie Mix" "5" 10 (Some 10%R) None None None.
Definition c2 : Product :=
  mkProduct "2" "Sugar Cookie Mix" "5" 5 (Some 9%R) None None None.
Definition c3 : Product :=
  mkProduct "3" "Chocolate Cake Mix" "5" 15 (Some 11%R) None None None.
Definition pool : list Product := [c1; c2; c3].
Definition service : SimilarProductsService :=
  mkService (mkAdapter (fun _ _ => Ok pool)) 2.

End EndToEnd.

(** ** The orchestration layer

    [enrich_profile] and [cleanup_profile] of [similar_products_service.py]
    and the Klaviyo client of [app/clients/klaviyo_client.py].  The
    logging calls are left out. *)

(** The exceptions met above the scoring layer: those of the adapter and of
    the scoring ([exn]), the client's [KlaviyoAPIError], and the built-in
    errors raised on a value of the wrong type. *)
Inductive exception : Type :=
| Exn (e : exn)
| KlaviyoAPIError (msg : string)
| AttributeError
| TypeError.

(** JSON values, as [response.json()] returns them and as request payloads
    hold them; [None] is [JNull].  An object is the map of its members: the
    code reads and writes members by key only. *)
#[warnings="-register-all"]
Inductive json : Type :=
| JNull
| JBool (b : bool)
| JInt (n : Z)
| JFloat (x : R)
| JStr (s : string)
| JList (l : list json)
| JDict (d : gmap string json).

(** How a computation above the scoring layer ends: it returns a value or
    raises. *)
Inductive outcome (A : Type) : Type :=
| Return (a : A)
| Throw (e : exception).

Arguments Return {A} a.
Arguments Throw {A} e.

#[global] Instance outcome_ret : MRet outcome := fun A a => Return a.

#[global] Instance outcome_bind : MBind outcome := fun A B k m =>
  match m with
  | Return a => k a
  | Throw e => Throw e
  end.

(** A request that changes the remote state:
    [session.patch(url, json=payload)]. *)
Record Request : Type := mkRequest {
  url : string;
  payload : json
}.

(** A computation that issues such requests: the requests issued, in order,
    accepted or not, and how it ended. *)
Record io (A : Type) : Type := mkIO {
  sent : list Request;
  outcome_of : outcome A
}.

Arguments mkIO {A} sent outcome_of.
Arguments sent {A} i.
Arguments outcome_of {A} i.

#[global] Instance io_ret : MRet io := fun A a => mkIO [] (Return a).

#[global] Instance io_bind : MBind io := fun A B k m =>
  match outcome_of m with
  | Return a => mkIO (sent m ++ sent (k a)) (outcome_of (k a))
  | Throw e => mkIO (sent m) (Throw e)
  end.

(** A step that issues no request, and a call into the scoring layer. *)
Definition pure_step {A : Type} (m : outcome A) : io A := mkIO [] m.

Definition from_result {A : Type} (m : result A) : io A :=
  match m with
  | Ok a => mkIO [] (Return a)
  | Raise e => mkIO [] (Throw (Exn e))
  end.

(** [try: body / except Exception as e: handler e] *)
Definition try_io {A : Type} (body : io A) (handler : exception -> io A)
  : io A :=
  match outcome_of body with
  | Return a => body
  | Throw e => mkIO (sent body ++ sent (handler e)) (outcome_of (handler e))
  end.

(** *** The Klaviyo client *)

(** The client as the two methods below see it.  [get_profile_id_by_email]
    and [_get_similar_products_array] only read the remote state and are
    taken as they answer: the former returns a profile id, [None], or
    raises; the latter returns a list and raises nothing, as it catches
    every exception.  [session_patch url payload] is how
    [session.patch(url, json=payload)] followed by [raise_for_status()]
    ends: [None], or the text of the [RequestException] raised. *)
Record KlaviyoClient : Type := mkKlaviyoClient {
  get_profile_id_by_email : string -> outcome (option string);
  _get_similar_products_array : string -> list json;
  session_patch : string -> json -> option string
}.

Definition BASE_URL : string := "https://a.klaviyo.com/api".

Definition update_profile_properties (self : KlaviyoClient)
    (profile_id : string) (properties : gmap string json) : io bool :=
  let url := BASE_URL ++ "/profiles/" ++ profile_id ++ "/" in
  let payload :=
    JDict {[ "data" :=
      JDict {[ "type" := JStr "profile";
               "id" := JStr profile_id;
               "attributes" := JDict {[ "properties" := JDict properties ]} ]} ]}
  in
  mkIO [mkRequest url payload]
       match session_patch self url payload with
       | None => Return true
       | Some e => Throw (KlaviyoAPIError ("Failed to update profile: " ++ e))
       end.

(** [item.get(key)]: an absent member reads as [None]; a value that is not
    an object has no [get]. *)
Definition item_get (item : json) (key : string) : outcome json :=
  match item with
  | JDict d => Return (default JNull (d !! key))
  | _ => Throw AttributeError
  end.

(** [value != s] for a string [s]: only an equal string is not different. *)
Definition ne_str (value : json) (s : string) : bool :=
  match value with
  | JStr s' => negb (String.eqb s' s)
  | _ => true
  end.

(** [[item for item in existing_array if item.get('product_id') != product_id]] *)
Fixpoint without_product (product_id : string) (existing_array : list json)
  : outcome (list json) :=
  match existing_array with
  | [] => Return []
  | item :: existing_array =>
      value ← item_get item "product_id";
      rest ← without_product product_id existing_array;
      mret (if ne_str value product_id then item :: rest else rest)
  end.

(** The entry that [add_similar_products] appends. *)
Definition new_entry (product_id : string) (similar_product_ids : list string)
    (enriched_at : string) : json :=
  JDict {[ "product_id" := JStr product_id;
           "similar_ids" := JList (JStr <$> similar_product_ids);
           "enriched_at" := JStr enriched_at ]}.

Definition add_similar_products (self : KlaviyoClient)
    (email product_id : string) (similar_product_ids : list string)
    (enriched_at : string) : io bool :=
  profile_id ← pure_step (get_profile_id_by_email self email);
  if negb (truthy_str profile_id)
  then mkIO [] (Throw (KlaviyoAPIError
                         ("Profile not found for email: " ++ email)))
  else
    let profile_id := str_of profile_id in
    let existing_array := _get_similar_products_array self profile_id in
    existing_array ← pure_step (without_product product_id existing_array);
    let existing_array :=
      (existing_array
       ++ [new_entry product_id similar_product_ids enriched_at])%list in
    update_profile_properties self profile_id
      {[ "bis_similar_products" := JList existing_array ]}.

Definition remove_similar_products (self : KlaviyoClient)
    (email : string) (product_id : option string) : io bool :=
  profile_id ← pure_step (get_profile_id_by_email self email);
  if negb (truthy_str profile_id)
  then mret false
  else
    let profile_id := str_of profile_id in
    match product_id with
    | None =>
        update_profile_properties self profile_id
          {[ "bis_similar_products" := JNull ]}
    | Some product_id =>
        let existing_array := _get_similar_products_array self profile_id in
        filtered_array ←
          pure_step (without_product product_id existing_array);
        if decide (length filtered_array = 0%nat)
        then update_profile_properties self profile_id
               {[ "bis_similar_products" := JNull ]}
        else update_profile_properties self profile_id
               {[ "bis_similar_products" := JList filtered_array ]}
    end.

(** *** The service *)

(** The dict that [enrich_profile] returns. *)
Record EnrichResult : Type := mkEnrichResult {
  success : bool;
  similar_count : nat;
  error : option string
}.

(** The service object as [enrich_profile] and [cleanup_profile] use it:
    [ranker] holds [ecommerce_adapter.get_products_by_category] and
    [limit], as [find_similar_products] reads them; [get_product] is
    [ecommerce_adapter.get_product], which returns the product, [None], or
    raises; [klaviyo_client] is the client. *)
Record Orchestrator : Type := mkOrchestrator {
  ranker : SimilarProductsService;
  get_product : string -> result (option Product);
  klaviyo_client : KlaviyoClient
}.

Section Service.

(** The scorer the service imports, and [str(e)]. *)
Variable scorer : Product -> Product -> list Product -> result R.
Variable str : exception -> string.

(** The body of the [try] block of [enrich_profile]; [now] is
    [datetime.utcnow().isoformat()]. *)
Definition enrich_profile_body (self : Orchestrator)
    (email product_id now : string) : io EnrichResult :=
  original_product ← from_result (get_product self product_id);
  match original_product with
  | None => mret (mkEnrichResult false 0 (Some "Product not found"))
  | Some original_product =>
      similar_product_ids ←
        from_result (find_similar_products scorer (ranker self)
                       original_product);
      _ ← (if decide (0 < length similar_product_ids)%nat
           then add_similar_products (klaviyo_client self) email product_id
                  similar_product_ids (now ++ "Z")
           else (mret true : io bool));
      mret (mkEnrichResult true (length similar_product_ids) None)
  end.

Definition enrich_profile (self : Orchestrator)
    (email product_id now : string) : io EnrichResult :=
  try_io (enrich_profile_body self email product_id now)
         (fun e => mret (mkEnrichResult false 0 (Some (str e)))).

Definition cleanup_profile (self : Orchestrator)
    (email : string) (product_id : option string) : io bool :=
  try_io (_ ← remove_similar_products (klaviyo_client self) email product_id;
          mret true)
         (fun e => mret false).

End Service.

(** *** The webhook secret ([app/utils/validators.py]) *)

(** [secrets.compare_digest(a, b)] on two [str]: it raises [TypeError]
    unless both consist of ASCII characters, and compares them otherwise. *)
Definition is_ascii_str (s : string) : bool :=
  forallb (fun c => (Tokenizer.code c <? 128)%nat) (list_ascii_of_string s).

Definition compare_digest (a b : string) : outcome bool :=
  if is_ascii_str a && is_ascii_str b then Return (String.eqb a b)
  else Throw TypeError.

(** [WEBHOOK_SECRET] is [Config.WEBHOOK_SECRET]; [provided_token] is the
    value of the request header, [None] when the header is absent. *)
Definition validate_webhook_secret (WEBHOOK_SECRET : string)
    (provided_token : option string) : outcome bool :=
  if negb (truthy_str provided_token) then Return false
  else compare_digest (str_of provided_token) WEBHOOK_SECRET.

(** *** Notions used to state the properties of the client

    A JSON object, and an entry of the array that belongs to
    [product_id]. *)
Definition is_dict (item : json) : bool :=
  match item with
  | JDict _ => true
  | _ => false
  end.

Definition is_entry_of (product_id : string) (item : json) : bool :=
  match item with
  | JDict d =>
      match d !! "product_id" with
      | Some (JStr s) => String.eqb s product_id
      | _ => false
      end
  | _ => false
  end.

(** *** Sample accounts and services

    A Klaviyo account with one profile, which holds the entries of two
    earlier subscriptions, and one without profiles. *)
Module KlaviyoExamples.

Definition stored : list json :=
  [ new_entry "7" ["8"; "9"] "2025-10-29T08:00:00Z";
    new_entry "4422" ["1"] "2025-10-30T12:34:56Z" ].

Definition client : KlaviyoClient :=
  mkKlaviyoClient (fun email => Return (Some "01PROFILE"))
                  (fun profile_id => stored)
                  (fun url payload => None).

(** The same account after the entry of product 4422 has been replaced. *)
Definition client_after : KlaviyoClient :=
  mkKlaviyoClient (fun email => Return (Some "01PROFILE"))
                  (fun profile_id =>
                     [ new_entry "7" ["8"; "9"] "2025-10-29T08:00:00Z";
                       new_entry "4422" ["15655"; "11773"]
                         "2025-10-31T09:00:00Z" ])
                  (fun url payload => None).

Definition no_profile : KlaviyoClient :=
  mkKlaviyoClient (fun email => Return None)
                  (fun profile_id => [])
                  (fun url payload => None).

End KlaviyoExamples.

Module ServiceExamples.

(** [str(e)] for the exceptions that are raised with a text; the samples
    meet no other exception. *)
Definition str (e : exception) : string :=
  match e with
  | Exn (EcommerceAPIError msg) => msg
  | KlaviyoAPIError msg => msg
  | _ => ""
  end.

(** The service of the end-to-end example with a Klaviyo account that knows
    the email, one whose category request fails, and one whose Klaviyo
    account has no profile. *)
Definition orchestrator : Orchestrator :=
  mkOrchestrator EndToEnd.service
                 (fun product_id => Ok (Some EndToEnd.reference))
                 KlaviyoExamples.client.

Definition broken_category : Orchestrator :=
  mkOrchestrator Examples.failing_service
                 (fun product_id => Ok (Some Examples.reference))
                 KlaviyoExamples.client.

Definition unknown_email : Orchestrator :=
  mkOrchestrator EndToEnd.service
                 (fun product_id => Ok (Some EndToEnd.reference))
                 KlaviyoExamples.no_profile.

End ServiceExamples.

(** * Properties *)

(** ** The error monad *)

(** Reduce the binds and returns whose scrutinee is a constructor. *)
Tactic Notation "monad_step" :=
  cbn [mbind mret result_bind result_ret].
Tactic Notation "monad_step" "in" hyp(H) :=
  cbn [mbind mret result_bind result_ret] in H.

Lemma pydiv_Ok (x y : R) : y <> 0%R -> pydiv x y = Ok (x / y)%R.
Proof. intros H. unfold pydiv. case_decide; [contradiction | reflexivity]. Qed.

Lemma pylog_Ok (x : R) : (0 < x)%R -> pylog x = Ok (ln x).
Proof. intros H. unfold pylog. case_decide; [reflexivity | contradiction]. Qed.

Lemma div_mul_cancel (x y : R) : y <> 0%R -> (x / y * y = x)%R.
Proof.
  intros H. unfold Rdiv. rewrite Rmult_assoc, Rinv_l by exact H.
  apply Rmult_1_r.
Qed.

(** ** The tokenizer on sample names *)

Example tokenize_empty : _tokenize_product_name "" = ∅.
Proof. reflexivity. Qed.

Example tokenize_units :
  _tokenize_product_name "Keto Bar 12 szt 250ml box2kg" = {[ "keto"; "bar" ]}.
Proof. vm_compute. reflexivity. Qed.

Example tokenize_unit_inside_word :
  _tokenize_product_name "Cafe 1l1l 99lbs 5 oz." = {[ "cafe"; "99lbs" ]}.
Proof. vm_compute. reflexivity. Qed.

Example tokenize_short_and_stop_words :
  _tokenize_product_name "Tea for the Box of 10" = {[ "tea" ]}.
Proof. vm_compute. reflexivity. Qed.

(** ** Document frequencies and idf weights *)

Lemma count_terms_lookup (doc_freq : gmap string nat) (doc : gset string)
    (t : string) :
  count_terms doc_freq doc !! t
  = if decide (t ∈ doc) then Some (S (default 0%nat (doc_freq !! t)))
    else doc_freq !! t.
Proof.
  unfold count_terms. revert t.
  refine (set_fold_ind_L
            (fun (r : gmap string nat) (X : gset string) =>
               forall t, r !! t
                         = if decide (t ∈ X)
                           then Some (S (default 0%nat (doc_freq !! t)))
                           else doc_freq !! t) _ _ _ _ doc).
  - intros t. case_decide; [set_solver | reflexivity].
  - intros x X r Hx IH t.
    destruct (decide (x = t)) as [->|Hne].
    + rewrite lookup_insert_eq, IH.
      rewrite decide_False by exact Hx.
      rewrite decide_True by set_solver. reflexivity.
    + rewrite lookup_insert_ne by exact Hne. rewrite IH.
      destruct (decide (t ∈ X)) as [Ht|Ht].
      * rewrite decide_True; [reflexivity|].
        apply elem_of_union. by right.
      * rewrite decide_False; [reflexivity|].
        rewrite elem_of_union, elem_of_singleton. intros [Heq|Hin]; auto.
Qed.

Lemma doc_freq_lookup (documents : list (gset string))
    (doc_freq : gmap string nat) (t : string) :
  foldl count_terms doc_freq documents !! t
  = match doc_count t documents with
    | O => doc_freq !! t
    | S _ => Some (default 0%nat (doc_freq !! t) + doc_count t documents)%nat
    end.
Proof.
  revert doc_freq. induction documents as [|doc documents IH]; intros doc_freq.
  - reflexivity.
  - cbn [foldl]. rewrite IH, count_terms_lookup. unfold doc_count.
    rewrite filter_cons. destruct (decide (t ∈ doc)); cbn [length default].
    + unfold Datatypes.id.
      destruct (length (filter (fun d => t ∈ d) documents)); f_equal; lia.
    + reflexivity.
Qed.

Lemma doc_freq_empty_lookup (documents : list (gset string)) (t : string) :
  foldl count_terms ∅ documents !! t
  = match doc_count t documents with
    | O => None
    | S _ => Some (doc_count t documents)
    end.
Proof. rewrite doc_freq_lookup, lookup_empty. reflexivity. Qed.

Lemma idf_value_Ok (total_docs df : nat) :
  idf_value total_docs df = Ok (idf_weight total_docs df).
Proof.
  unfold idf_value, idf_weight.
  assert (Hdf : (0 <= INR df)%R) by apply pos_INR.
  assert (HN : (0 <= INR total_docs)%R) by apply pos_INR.
  rewrite pydiv_Ok by lra. cbn.
  apply pylog_Ok.
  pose proof (div_mul_cancel (INR total_docs - INR df + 0.5) (INR df + 0.5)
                ltac:(lra)) as Hq.
  nra.
Qed.

(** [_calculate_bm25_idf] never raises; its table holds, for exactly the
    terms that occur in some document, the idf weight of their count. *)
Lemma _calculate_bm25_idf_Ok (documents : list (gset string)) :
  exists idf_scores : gmap string R,
    _calculate_bm25_idf documents = Ok idf_scores
    /\ forall t, idf_scores !! t
                 = match doc_count t documents with
                   | O => None
                   | S _ => Some (idf_weight (length documents)
                                             (doc_count t documents))
                   end.
Proof.
  destruct documents as [|doc documents].
  - exists ∅. split; [reflexivity | intros t; apply lookup_empty].
  - set (docs := doc :: documents).
    exists (idf_weight (length docs) <$> foldl count_terms ∅ docs). split.
    + unfold _calculate_bm25_idf. fold docs.
      change (match docs with [] => mret ∅ | _ => ?x end) with x.
      apply (map_fold_weak_ind
               (fun (r : result (gmap string R)) (m : gmap string nat) =>
                  r = Ok (idf_weight (length docs) <$> m))).
      * rewrite fmap_empty. reflexivity.
      * intros i x m r Hi ->. cbn. rewrite idf_value_Ok. cbn.
        rewrite fmap_insert. reflexivity.
    + intros t. rewrite lookup_fmap, doc_freq_empty_lookup.
      destruct (doc_count t docs); reflexivity.
Qed.

Lemma idf_weight_rare_gt_common (N : nat) :
  (3 <= N)%nat -> (idf_weight N (N - 1) < idf_weight N 1)%R.
Proof.
  intros HN. unfold idf_weight.
  assert (Hn : (3 <= INR N)%R).
  { replace 3%R with (INR 3) by (simpl; lra). apply le_INR. exact HN. }
  rewrite minus_INR by lia. change (INR 1) with 1%R.
  set (n := INR N) in *.
  pose proof (div_mul_cancel (n - (n - 1) + 0.5) (n - 1 + 0.5) ltac:(lra)) as Hc.
  pose proof (div_mul_cancel (n - 1 + 0.5) (1 + 0.5) ltac:(lra)) as Hr.
  apply ln_increasing; nra.
Qed.

(** ** The stable descending sort *)

Section SortReverse.

Context {A : Type} (key : A -> R).

Lemma insert_desc_Permutation (x : A) (l : list A) :
  Permutation (insert_desc key x l) (x :: l).
Proof.
  induction l as [|y l IH]; cbn.
  - reflexivity.
  - case_decide.
    + rewrite IH. apply perm_swap.
    + reflexivity.
Qed.

Lemma sort_reverse_Permutation (l : list A) :
  Permutation (sort_reverse key l) l.
Proof.
  induction l as [|x l IH]; cbn.
  - reflexivity.
  - rewrite insert_desc_Permutation. by constructor.
Qed.

Lemma sort_reverse_length (l : list A) :
  length (sort_reverse key l) = length l.
Proof. apply Permutation_length, sort_reverse_Permutation. Qed.

Lemma insert_desc_descending (x : A) (l : list A) :
  descending key l -> descending key (insert_desc key x l).
Proof.
  unfold descending. induction 1 as [|y l Hl IH Hy]; cbn.
  - repeat constructor.
  - case_decide as Hlt.
    + constructor; [exact IH|].
      rewrite Forall_forall. intros z Hz.
      rewrite insert_desc_Permutation in Hz.
      apply elem_of_cons in Hz as [->|Hz]; [lra|].
      rewrite Forall_forall in Hy. by apply Hy.
    + constructor; [by constructor|].
      constructor; [lra|].
      eapply Forall_impl; [exact Hy|]. cbn. intros z Hz. lra.
Qed.

Lemma sort_reverse_descending (l : list A) :
  descending key (sort_reverse key l).
Proof.
  induction l as [|x l IH]; cbn.
  - constructor.
  - by apply insert_desc_descending.
Qed.

(** Stability: the elements of any one key value keep their order. *)
Lemma insert_desc_stable (s : R) (x : A) (l : list A) :
  filter (fun a => key a = s) (insert_desc key x l)
  = filter (fun a => key a = s) (x :: l).
Proof.
  induction l as [|y l IH]; cbn.
  - reflexivity.
  - case_decide as Hlt; [|reflexivity].
    rewrite filter_cons, IH, !filter_cons.
    destruct (decide (key y = s)) as [Hy|Hy],
             (decide (key x = s)) as [Hx|Hx]; try reflexivity.
    lra.
Qed.

Lemma sort_reverse_stable (s : R) (l : list A) :
  filter (fun a => key a = s) (sort_reverse key l)
  = filter (fun a => key a = s) l.
Proof.
  induction l as [|x l IH].
  - reflexivity.
  - change (sort_reverse key (x :: l))
      with (insert_desc key x (sort_reverse key l)).
    rewrite insert_desc_stable, !filter_cons, IH. reflexivity.
Qed.

End SortReverse.

Lemma slice_to_length {A : Type} (l : list A) (n : Z) :
  (0 <= n)%Z ->
  Z.of_nat (length (slice_to l n)) = Z.min n (Z.of_nat (length l)).
Proof.
  intros Hn. unfold slice_to.
  destruct (Z.leb_spec 0 n) as [_|Hneg]; [|lia].
  rewrite length_take. lia.
Qed.

Lemma slice_to_subseteq {A : Type} (l : list A) (n : Z) : slice_to l n ⊆ l.
Proof.
  unfold slice_to. destruct (0 <=? n)%Z; apply sublist_subseteq, sublist_take.
Qed.

(** ** BM25 scoring *)

Lemma idf_weight_pos (N df : nat) :
  (df <= N)%nat -> (0 < idf_weight N df)%R.
Proof.
  intros Hle. unfold idf_weight.
  assert (Hdf : (0 <= INR df)%R) by apply pos_INR.
  assert (HN : (INR df <= INR N)%R) by (apply le_INR; exact Hle).
  pose proof (div_mul_cancel (INR N - INR df + 0.5) (INR df + 0.5)
                ltac:(lra)) as Hq.
  rewrite <- ln_1. apply ln_increasing; nra.
Qed.

Lemma doc_count_le (t : string) (documents : list (gset string)) :
  (doc_count t documents <= length documents)%nat.
Proof. unfold doc_count. apply length_filter. Qed.

Lemma _calculate_bm25_idf_pos (documents : list (gset string))
    (idf_scores : gmap string R) (t : string) (v : R) :
  _calculate_bm25_idf documents = Ok idf_scores ->
  idf_scores !! t = Some v -> (0 < v)%R.
Proof.
  intros Hidf Ht.
  destruct (_calculate_bm25_idf_Ok documents) as (idf' & Heq & Hlook).
  rewrite Hidf in Heq. injection Heq as <-.
  rewrite Hlook in Ht. destruct (doc_count t documents) eqn:Hc; [discriminate|].
  injection Ht as <-. rewrite <- Hc. apply idf_weight_pos, doc_count_le.
Qed.

Lemma idf_covers_documents (documents : list (gset string))
    (idf_scores : gmap string R) (doc : gset string) (t : string) :
  _calculate_bm25_idf documents = Ok idf_scores ->
  doc ∈ documents -> t ∈ doc ->
  exists w : R, idf_scores !! t = Some w /\ (0 < w)%R.
Proof.
  intros Hidf Hdoc Ht.
  destruct (_calculate_bm25_idf_Ok documents) as (idf' & Heq & Hlook).
  rewrite Hidf in Heq. injection Heq as <-.
  assert (Hcount : doc_count t documents <> 0%nat).
  { unfold doc_count. intros Hz. apply length_zero_iff_nil in Hz.
    assert (Hin : doc ∈ filter (fun d => t ∈ d) documents)
      by (by apply list_elem_of_filter).
    rewrite Hz in Hin. by inversion Hin. }
  rewrite Hlook. destruct (doc_count t documents) eqn:Hc; [done|].
  eexists. split; [reflexivity|]. rewrite <- Hc.
  apply idf_weight_pos, doc_count_le.
Qed.

Section BM25Loops.

Variables (doc_tokens : gset string) (idf_scores : gmap string R).
Variables (avgdl k1 b : R).

Let score_step := bm25_score_step doc_tokens idf_scores avgdl k1 b.
Let max_step := bm25_max_score_step doc_tokens idf_scores avgdl k1 b.

(** Without idf weights for the query terms neither loop divides. *)
Lemma bm25_loops_no_idf (l : list string) :
  (forall t, t ∈ l -> idf_scores !! t = None) ->
  foldr score_step (Ok 0.0%R) l = Ok 0.0%R
  /\ foldr max_step (Ok 0.0%R) l = Ok 0.0%R.
Proof.
  induction l as [|t l IH]; intros Hnone; [by split|].
  destruct IH as [IHs IHm].
  { intros u Hu. apply Hnone. by right. }
  cbn [foldr]. rewrite IHs, IHm.
  unfold score_step, max_step, bm25_score_step, bm25_max_score_step. cbn.
  rewrite (Hnone t) by left. by split.
Qed.

Hypothesis Hk1 : (0 <= k1)%R.
Hypothesis Hb : (0 <= b <= 1)%R.
Hypothesis Havgdl : (0 < avgdl)%R.
Hypothesis Hidf : forall t v, idf_scores !! t = Some v -> (0 < v)%R.

(** With a positive average length both loops run to the end; the score
    never exceeds the maximum, equals it when every query term is in the
    document, is 0 when none is, and is positive when a weighted query term
    is in the document. *)
Lemma bm25_loops_spec (l : list string) :
  exists score max_score : R,
    foldr score_step (Ok 0.0%R) l = Ok score
    /\ foldr max_step (Ok 0.0%R) l = Ok max_score
    /\ (0 <= score <= max_score)%R
    /\ ((forall t, t ∈ l -> t ∈ doc_tokens) -> score = max_score)
    /\ ((forall t, t ∈ l -> t ∉ doc_tokens) -> score = 0%R)
    /\ ((exists t, t ∈ l /\ t ∈ doc_tokens /\ is_Some (idf_scores !! t)) ->
        (0 < score)%R).
Proof.
  induction l as [|t l (s & m & Hs & Hm & Hsm & Hall & Hnone & Hsome)].
  { exists 0.0%R, 0.0%R. repeat split; try lra.
    intros (t & Ht & _). by inversion Ht. }
  assert (Hall' : (forall u, u ∈ t :: l -> u ∈ doc_tokens) -> s = m).
  { intros H. apply Hall. intros u Hu. apply H. by right. }
  assert (Hnone' : (forall u, u ∈ t :: l -> u ∉ doc_tokens) -> s = 0%R).
  { intros H. apply Hnone. intros u Hu. apply H. by right. }
  cbn [foldr]. rewrite Hs, Hm.
  unfold score_step, max_step, bm25_score_step, bm25_max_score_step. cbn.
  destruct (idf_scores !! t) as [idf|] eqn:Ht.
  2:{ exists s, m. repeat split; try tauto.
      intros (u & Hu & Hin & Hw). apply Hsome. exists u.
      apply elem_of_cons in Hu as [->|Hu]; [|done].
      rewrite Ht in Hw. by destruct Hw. }
  apply Hidf in Ht.
  set (r := (INR (size doc_tokens) / avgdl)%R).
  assert (Hr : (0 <= r)%R).
  { apply Rmult_le_pos; [apply pos_INR|].
    apply Rlt_le, Rinv_0_lt_compat, Havgdl. }
  assert (Hbr : (0 <= b * r)%R) by (apply Rmult_le_pos; lra).
  assert (Hkr : (0 <= k1 * (1.0 - b + b * r))%R)
    by (apply Rmult_le_pos; lra).
  assert (Hden : (1 <= 1.0 + k1 * (1.0 - b + b * r))%R) by lra.
  set (q := ((k1 + 1.0) / (1.0 + k1 * (1.0 - b + b * r)))%R).
  assert (Hq : (0 < q)%R) by (apply Rdiv_lt_0_compat; lra).
  assert (Hiq : (0 < idf * q)%R) by (apply Rmult_lt_0_compat; lra).
  assert (Havg : avgdl <> 0%R) by lra.
  rewrite !(pydiv_Ok _ avgdl Havg). cbn. fold r.
  rewrite (pydiv_Ok (k1 + 1.0)) by lra. cbn. fold q.
  case_bool_decide as Hin.
  - rewrite decide_False by lra.
    rewrite pydiv_Ok by lra. cbn.
    replace (1.0 * (k1 + 1.0) / (1.0 + k1 * (1.0 - b + b * r)))%R
      with q by (unfold q; f_equal; lra).
    exists (s + idf * q)%R, (m + idf * q)%R.
    split; [reflexivity|]. split; [reflexivity|]. split; [lra|].
    split; [|split].
    + intros H. rewrite (Hall' H). reflexivity.
    + intros H. exfalso. apply (H t); [by left | exact Hin].
    + intros _. lra.
  - rewrite decide_True by reflexivity.
    exists s, (m + idf * q)%R.
    split; [reflexivity|]. split; [reflexivity|]. split; [lra|].
    split; [|split].
    + intros H. exfalso. apply Hin, H. by left.
    + exact Hnone'.
    + intros (u & Hu & Hud & Hw). apply Hsome. exists u.
      apply elem_of_cons in Hu as [->|Hu]; [contradiction | done].
Qed.

Lemma bm25_loops_Ok (l : list string) :
  exists score max_score : R,
    foldr score_step (Ok 0.0%R) l = Ok score
    /\ foldr max_step (Ok 0.0%R) l = Ok max_score
    /\ (0 <= score <= max_score)%R.
Proof.
  destruct (bm25_loops_spec l) as (s & m & Hs & Hm & Hsm & _).
  by exists s, m.
Qed.

End BM25Loops.

Lemma Rmin_unit_interval (x : R) : (0 <= x <= 1)%R -> Rmin x 1.0 = x.
Proof. intros H. apply Rmin_left. lra. Qed.

Lemma _calculate_bm25_score_empty (query_tokens doc_tokens : gset string)
    (idf_scores : gmap string R) (avgdl k1 b : R) :
  query_tokens = ∅ \/ doc_tokens = ∅ ->
  _calculate_bm25_score query_tokens doc_tokens idf_scores avgdl k1 b = Ok 0%R.
Proof.
  intros H. unfold _calculate_bm25_score.
  replace (bool_decide (query_tokens = ∅) || bool_decide (doc_tokens = ∅))
    with true.
  - cbn. f_equal. lra.
  - symmetry. apply orb_true_iff.
    destruct H as [H|H]; [left|right]; by apply bool_decide_eq_true_2.
Qed.

Lemma _calculate_bm25_score_no_idf (query_tokens doc_tokens : gset string)
    (idf_scores : gmap string R) (avgdl k1 b : R) :
  (forall t, t ∈ query_tokens -> idf_scores !! t = None) ->
  _calculate_bm25_score query_tokens doc_tokens idf_scores avgdl k1 b = Ok 0%R.
Proof.
  intros Hnone. unfold _calculate_bm25_score.
  destruct (bool_decide (query_tokens = ∅) || bool_decide (doc_tokens = ∅)).
  { cbn. f_equal. lra. }
  unfold set_fold, mret, result_ret. cbn [compose].
  destruct (bm25_loops_no_idf doc_tokens idf_scores avgdl k1 b
              (elements query_tokens)) as [-> ->].
  { intros t Ht. apply Hnone. by apply elem_of_elements. }
  cbn. rewrite decide_False by lra. cbn. f_equal.
  rewrite Rmin_left; lra.
Qed.

Lemma _calculate_bm25_score_Ok (query_tokens doc_tokens : gset string)
    (idf_scores : gmap string R) (avgdl : R) :
  (0 < avgdl)%R ->
  (forall t v, idf_scores !! t = Some v -> (0 < v)%R) ->
  exists v : R,
    _calculate_bm25_score query_tokens doc_tokens idf_scores avgdl 1.5 0.75
    = Ok v
    /\ (0 <= v <= 1)%R.
Proof.
  intros Havgdl Hidf. unfold _calculate_bm25_score.
  destruct (bool_decide (query_tokens = ∅) || bool_decide (doc_tokens = ∅)).
  { exists 0.0%R. split; [reflexivity | lra]. }
  unfold set_fold, mret, result_ret. cbn [compose].
  destruct (bm25_loops_Ok doc_tokens idf_scores avgdl 1.5 0.75
              ltac:(lra) ltac:(lra) Havgdl Hidf (elements query_tokens))
    as (s & m & -> & -> & Hsm).
  cbn. case_decide as Hm.
  - rewrite pydiv_Ok by lra. cbn.
    assert (Hq : (0 <= s / m <= 1)%R).
    { pose proof (div_mul_cancel s m ltac:(lra)). split.
      - apply Rmult_le_pos; [lra|]. apply Rlt_le, Rinv_0_lt_compat. lra.
      - nra. }
    exists (s / m)%R. by rewrite Rmin_unit_interval.
  - cbn. exists s. rewrite Rmin_unit_interval by lra. split; [reflexivity|lra].
Qed.

Lemma bm25_not_early (query_tokens doc_tokens : gset string) (t : string) :
  t ∈ query_tokens -> t ∈ doc_tokens ->
  bool_decide (query_tokens = ∅) || bool_decide (doc_tokens = ∅) = false.
Proof.
  intros Hq Hd. apply orb_false_iff.
  split; apply bool_decide_eq_false_2; intros ->.
  - by apply not_elem_of_empty in Hq.
  - by apply not_elem_of_empty in Hd.
Qed.

(** A weighted query term in the document gives a positive score; when all
    query terms are in the document the score is 1. *)
Lemma _calculate_bm25_score_match (query_tokens doc_tokens : gset string)
    (idf_scores : gmap string R) (avgdl : R) :
  (0 < avgdl)%R ->
  (forall t v, idf_scores !! t = Some v -> (0 < v)%R) ->
  (exists t, t ∈ query_tokens /\ t ∈ doc_tokens
             /\ is_Some (idf_scores !! t)) ->
  exists v : R,
    _calculate_bm25_score query_tokens doc_tokens idf_scores avgdl 1.5 0.75
    = Ok v
    /\ (0 < v <= 1)%R
    /\ (query_tokens ⊆ doc_tokens -> v = 1%R).
Proof.
  intros Havgdl Hidf (t & Hq & Hd & Hw). unfold _calculate_bm25_score.
  rewrite (bm25_not_early _ _ t Hq Hd).
  unfold set_fold, mret, result_ret. cbn [compose].
  destruct (bm25_loops_spec doc_tokens idf_scores avgdl 1.5 0.75
              ltac:(lra) ltac:(lra) Havgdl Hidf (elements query_tokens))
    as (s & m & -> & -> & Hsm & Hall & _ & Hsome).
  assert (Hs : (0 < s)%R).
  { apply Hsome. exists t. by rewrite elem_of_elements. }
  monad_step. rewrite decide_True by lra.
  rewrite pydiv_Ok by lra. monad_step.
  pose proof (div_mul_cancel s m ltac:(lra)) as Hc.
  assert (Hq01 : (0 < s / m <= 1)%R).
  { split; [apply Rdiv_lt_0_compat; lra | nra]. }
  exists (s / m)%R. rewrite Rmin_unit_interval by lra.
  split; [reflexivity|]. split; [exact Hq01|].
  intros Hsub. rewrite Hall in Hc |- *.
  - nra.
  - intros u Hu. apply Hsub. by apply elem_of_elements.
  - intros u Hu. apply Hsub. by apply elem_of_elements.
Qed.

(** No query term in the document: the score is 0. *)
Lemma _calculate_bm25_score_disjoint (query_tokens doc_tokens : gset string)
    (idf_scores : gmap string R) (avgdl : R) :
  (0 < avgdl)%R ->
  (forall t v, idf_scores !! t = Some v -> (0 < v)%R) ->
  (forall t, t ∈ query_tokens -> t ∉ doc_tokens) ->
  _calculate_bm25_score query_tokens doc_tokens idf_scores avgdl 1.5 0.75
  = Ok 0%R.
Proof.
  intros Havgdl Hidf Hdisj. unfold _calculate_bm25_score.
  destruct (bool_decide (query_tokens = ∅) || bool_decide (doc_tokens = ∅)).
  { cbn. f_equal. lra. }
  unfold set_fold, mret, result_ret. cbn [compose].
  destruct (bm25_loops_spec doc_tokens idf_scores avgdl 1.5 0.75
              ltac:(lra) ltac:(lra) Havgdl Hidf (elements query_tokens))
    as (s & m & -> & -> & Hsm & _ & Hnone & _).
  assert (Hs0 : s = 0%R).
  { apply Hnone. intros u Hu. apply Hdisj. by apply elem_of_elements. }
  subst s. monad_step. case_decide.
  - rewrite pydiv_Ok by lra. monad_step. f_equal.
    rewrite Rmin_left; unfold Rdiv; lra.
  - monad_step. f_equal. rewrite Rmin_left; lra.
Qed.

(** ** The corpus *)

Lemma corpus_documents_original (original : Product)
    (all_products : list Product) :
  _tokenize_product_name (name original)
  ∈ corpus_documents original all_products.
Proof. unfold corpus_documents. cbn. left. Qed.

Lemma corpus_documents_original_secondary (original : Product)
    (all_products : list Product) :
  truthy_str (name_secondary original) = true ->
  _tokenize_product_name (str_of (name_secondary original))
  ∈ corpus_documents original all_products.
Proof.
  intros H. unfold corpus_documents. rewrite H. cbn. right. left.
Qed.

Lemma corpus_documents_candidate (original : Product)
    (all_products : list Product) (p : Product) :
  p ∈ all_products -> id p <> id original ->
  _tokenize_product_name (name p) ∈ corpus_documents original all_products
  /\ (truthy_str (name_secondary p) = true ->
      _tokenize_product_name (str_of (name_secondary p))
      ∈ corpus_documents original all_products).
Proof.
  intros Hp Hid. unfold corpus_documents.
  apply String.eqb_neq in Hid.
  split; [|intros Hsec]; apply elem_of_app; right;
    apply list_elem_of_In, in_flat_map; exists p;
    (split; [by apply list_elem_of_In|]); rewrite Hid; [by left|].
  rewrite Hsec. right. by left.
Qed.

Lemma sum_list_size_ge (documents : list (gset string)) (doc : gset string) :
  doc ∈ documents -> (size doc <= sum_list (size <$> documents))%nat.
Proof.
  induction 1 as [doc documents|doc doc' documents _ IH]; cbn; lia.
Qed.

Lemma average_doc_length_Ok (documents : list (gset string)) :
  exists avgdl : R,
    average_doc_length documents = Ok avgdl
    /\ (0 <= avgdl)%R
    /\ forall doc, doc ∈ documents -> doc <> ∅ -> (0 < avgdl)%R.
Proof.
  destruct documents as [|d0 documents].
  { exists 1.0%R. split; [reflexivity|]. split; [lra|]. intros; lra. }
  set (docs := d0 :: documents).
  assert (Hlen : (0 < INR (length docs))%R) by (apply lt_0_INR; cbn; lia).
  exists (INR (sum_list (size <$> docs)) / INR (length docs))%R.
  split; [|split].
  - unfold average_doc_length. fold docs.
    change (match docs with [] => mret 1.0%R | _ => ?x end) with x.
    apply pydiv_Ok. lra.
  - apply Rmult_le_pos; [apply pos_INR|].
    apply Rlt_le, Rinv_0_lt_compat, Hlen.
  - intros doc Hdoc Hne. apply Rdiv_lt_0_compat; [|exact Hlen].
    apply lt_0_INR. pose proof (sum_list_size_ge docs doc Hdoc).
    assert (size doc <> 0)%nat; [|lia].
    intros Hz. apply Hne. apply leibniz_equiv. by apply size_empty_iff.
Qed.

Lemma bm25_in_corpus (documents : list (gset string))
    (idf_scores : gmap string R) (avgdl : R)
    (query_tokens doc_tokens : gset string) :
  _calculate_bm25_idf documents = Ok idf_scores ->
  average_doc_length documents = Ok avgdl ->
  query_tokens ∈ documents \/ query_tokens = ∅ ->
  exists v : R,
    _calculate_bm25_score query_tokens doc_tokens idf_scores avgdl 1.5 0.75
    = Ok v
    /\ (0 <= v <= 1)%R.
Proof.
  intros Hidf Havg Hq.
  destruct (decide (query_tokens = ∅)) as [Hempty|Hne].
  { exists 0%R. split; [|lra]. apply _calculate_bm25_score_empty. by left. }
  destruct Hq as [Hq|Hq]; [|contradiction].
  destruct (average_doc_length_Ok documents) as (a & Ha & _ & Hpos).
  rewrite Havg in Ha. injection Ha as <-.
  apply _calculate_bm25_score_Ok.
  - by apply (Hpos query_tokens).
  - intros t v. by apply (_calculate_bm25_idf_pos documents).
Qed.

Lemma truthy_str_false (o : option string) :
  truthy_str o = false -> str_of o = "".
Proof.
  destruct o as [s|]; cbn; [|reflexivity].
  intros H. apply negb_false_iff in H. by apply String.eqb_eq.
Qed.

(** [calculate_name_similarity_with_context] never raises; its value is the
    BM25 score of the primary names, or the larger of the primary and the
    secondary score when both products have a secondary name, all under the
    model of the one corpus [corpus_documents original all_products]. *)
Lemma calculate_name_similarity_with_context_Ok
    (original : Product) (all_products : list Product) :
  exists (idf_scores : gmap string R) (avgdl : R),
    _calculate_bm25_idf (corpus_documents original all_products)
    = Ok idf_scores
    /\ average_doc_length (corpus_documents original all_products) = Ok avgdl
    /\ forall candidate : Product,
      exists primary secondary : R,
        _calculate_bm25_score
          (_tokenize_product_name (name original))
          (_tokenize_product_name (name candidate))
          idf_scores avgdl 1.5 0.75 = Ok primary
        /\ _calculate_bm25_score
             (_tokenize_product_name (str_of (name_secondary original)))
             (_tokenize_product_name (str_of (name_secondary candidate)))
             idf_scores avgdl 1.5 0.75 = Ok secondary
        /\ (0 <= primary <= 1)%R /\ (0 <= secondary <= 1)%R
        /\ calculate_name_similarity_with_context
             original candidate all_products
           = Ok (if truthy_str (name_secondary original)
                    && truthy_str (name_secondary candidate)
                 then Rmax primary secondary
                 else primary).
Proof.
  set (documents := corpus_documents original all_products).
  destruct (_calculate_bm25_idf_Ok documents) as (idf_scores & Hidf & _).
  destruct (average_doc_length_Ok documents) as (avgdl & Havg & _).
  exists idf_scores, avgdl. split; [exact Hidf|]. split; [exact Havg|].
  intros candidate.
  destruct (bm25_in_corpus documents idf_scores avgdl
              (_tokenize_product_name (name original))
              (_tokenize_product_name (name candidate)) Hidf Havg)
    as (primary & Hprimary & Hp01).
  { left. apply corpus_documents_original. }
  destruct (bm25_in_corpus documents idf_scores avgdl
              (_tokenize_product_name (str_of (name_secondary original)))
              (_tokenize_product_name (str_of (name_secondary candidate)))
              Hidf Havg)
    as (secondary & Hsecondary & Hs01).
  { destruct (truthy_str (name_secondary original)) eqn:Hsec.
    - left. by apply corpus_documents_original_secondary.
    - right. by rewrite (truthy_str_false _ Hsec). }
  exists primary, secondary. repeat (split; [assumption|]).
  unfold calculate_name_similarity_with_context. fold documents.
  rewrite Hidf. monad_step. rewrite Havg. monad_step.
  rewrite Hprimary. monad_step.
  destruct (truthy_str (name_secondary original)
            && truthy_str (name_secondary candidate)); [|reflexivity].
  rewrite Hsecondary. reflexivity.
Qed.

(** ** Price tiers and the composite scores *)

Lemma _calculate_price_similarity_Ok (price1 price2 : R) :
  price1 <> 0%R ->
  exists v : R,
    _calculate_price_similarity price1 price2 = Ok v
    /\ let d := (Rabs (price1 - price2) / price1)%R in
       ((d <= 0.20)%R /\ v = 1.0%R)
       \/ ((0.20 < d <= 0.50)%R /\ v = 0.5%R)
       \/ ((0.50 < d)%R /\ v = 0.2%R).
Proof.
  intros Hp. unfold _calculate_price_similarity.
  rewrite pydiv_Ok by exact Hp. cbn.
  repeat case_decide.
  - exists 1.0%R. split; [reflexivity|]. left. by split.
  - exists 0.5%R. split; [reflexivity|]. right. left. split; [lra|reflexivity].
  - exists 0.2%R. split; [reflexivity|]. right. right. split; [lra|reflexivity].
Qed.

Lemma _jaccard_similarity_Ok (set1 set2 : gset string) :
  exists v : R, _jaccard_similarity set1 set2 = Ok v /\ (0 <= v <= 1)%R.
Proof.
  unfold _jaccard_similarity.
  destruct (bool_decide (set1 = ∅) || bool_decide (set2 = ∅)) eqn:Hempty.
  { exists 0%R. split; [reflexivity|lra]. }
  apply orb_false_iff in Hempty as [H1 _].
  apply bool_decide_eq_false_1 in H1.
  case_bool_decide as Hunion; [|exists 0%R; split; [reflexivity|lra]].
  assert (Hsz : (0 < size (set1 ∪ set2))%nat).
  { assert (size (set1 ∪ set2) <> 0)%nat; [|lia].
    intros Hz. apply Hunion, leibniz_equiv. by apply size_empty_iff. }
  assert (Hle : (size (set1 ∩ set2) <= size (set1 ∪ set2))%nat).
  { apply subseteq_size. intros x Hx. apply elem_of_intersection in Hx.
    apply elem_of_union. left. tauto. }
  apply lt_0_INR in Hsz. apply le_INR in Hle.
  pose proof (pos_INR (size (set1 ∩ set2))) as Hpos.
  assert (Hnz : INR (size (set1 ∪ set2)) <> 0%R) by lra.
  rewrite pydiv_Ok by exact Hnz. eexists. split; [reflexivity|].
  pose proof (div_mul_cancel (INR (size (set1 ∩ set2))) _ Hnz).
  split.
  - apply Rmult_le_pos; [lra|]. apply Rlt_le, Rinv_0_lt_compat. lra.
  - nra.
Qed.

Lemma _calculate_name_similarity_Ok (original candidate : Product) :
  exists v : R,
    _calculate_name_similarity original candidate = Ok v /\ (0 <= v <= 1)%R.
Proof.
  unfold _calculate_name_similarity.
  destruct (_jaccard_similarity_Ok
              (_tokenize_product_name (name original))
              (_tokenize_product_name (name candidate)))
    as (p & -> & Hp).
  cbn.
  destruct (truthy_str (name_secondary original)
            && truthy_str (name_secondary candidate)); [|by exists p].
  destruct (_jaccard_similarity_Ok
              (_tokenize_product_name (str_of (name_secondary original)))
              (_tokenize_product_name (str_of (name_secondary candidate))))
    as (s & -> & Hs).
  cbn. exists (Rmax p s). split; [reflexivity|].
  unfold Rmax. destruct (Rle_dec p s); lra.
Qed.

Lemma float_of_Some (p : R) : float_of (Some p) = p.
Proof. reflexivity. Qed.

Lemma _calculate_price_similarity_tier (price1 price2 : R) :
  price1 <> 0%R ->
  _calculate_price_similarity price1 price2
  = Ok (price_tier (Rabs (price1 - price2) / price1)).
Proof.
  intros Hp. unfold _calculate_price_similarity, price_tier.
  rewrite pydiv_Ok by exact Hp. monad_step.
  repeat case_decide; reflexivity.
Qed.

Lemma price_guard_nonzero (original candidate : Product) :
  price_guard original candidate = true ->
  float_of (price original) <> 0%R.
Proof.
  unfold price_guard. intros H.
  apply andb_true_iff in H as [_ H]. apply bool_decide_eq_true_1 in H. lra.
Qed.

Lemma positive_price_nonzero (o : option R) :
  positive_price o = true -> float_of o <> 0%R.
Proof.
  destruct o as [p|]; cbn; [|discriminate].
  intros H. apply bool_decide_eq_true_1 in H. lra.
Qed.

Lemma name_similarity_without_price (original candidate : Product) :
  _calculate_name_similarity (without_price original) candidate
  = _calculate_name_similarity original candidate.
Proof. reflexivity. Qed.

Lemma manufacturer_match_without_price (original candidate : Product) :
  manufacturer_match (without_price original) candidate
  = manufacturer_match original candidate.
Proof. reflexivity. Qed.

Lemma price_guard_without_price (original candidate : Product) :
  price_guard (without_price original) candidate = false.
Proof. reflexivity. Qed.

Lemma manufacturer_match_without_names (original candidate : Product) :
  manufacturer_match (without_names original) (without_names candidate)
  = manufacturer_match original candidate.
Proof. reflexivity. Qed.

(** The value of the corpus-free composite score, term by term. *)
Lemma calculate_product_similarity_eq (original candidate : Product) :
  exists n : R,
    _calculate_name_similarity original candidate = Ok n
    /\ (0 <= n <= 1)%R
    /\ calculate_product_similarity original candidate
       = Ok (n * 0.60
             + (if price_guard original candidate
                then price_tier (Rabs (float_of (price original)
                                       - float_of (price candidate))
                                 / float_of (price original)) * 0.30
                else 0)
             + (if manufacturer_match original candidate then 0.10 else 0))%R.
Proof.
  destruct (_calculate_name_similarity_Ok original candidate)
    as (n & Hn & Hn01).
  exists n. split; [exact Hn|]. split; [exact Hn01|].
  unfold calculate_product_similarity. rewrite Hn. monad_step.
  fold (price_guard original candidate).
  fold (manufacturer_match original candidate).
  destruct (price_guard original candidate) eqn:Hguard.
  - rewrite _calculate_price_similarity_tier
      by (by apply (price_guard_nonzero original candidate)).
    monad_step.
    destruct (manufacturer_match original candidate); f_equal; lra.
  - monad_step.
    destruct (manufacturer_match original candidate); f_equal; lra.
Qed.

(** The value of the composite score against a corpus, term by term. *)
Lemma calculate_similarity_with_context_eq
    (original candidate : Product) (all_products : list Product) (n : R) :
  calculate_name_similarity_with_context original candidate all_products
  = Ok n ->
  calculate_similarity_with_context original candidate all_products
  = Ok (n * 0.60
        + (if positive_price (price original)
              && positive_price (price candidate)
           then price_tier (Rabs (float_of (price original)
                                  - float_of (price candidate))
                            / float_of (price original)) * 0.30
           else 0)
        + (if manufacturer_match original candidate then 0.10 else 0))%R.
Proof.
  intros Hn. unfold calculate_similarity_with_context.
  rewrite Hn. monad_step.
  fold (manufacturer_match original candidate).
  destruct (positive_price (price original)) eqn:Hpo; cbn [andb].
  - destruct (positive_price (price candidate)).
    + rewrite _calculate_price_similarity_tier
        by (by apply positive_price_nonzero).
      monad_step.
      destruct (manufacturer_match original candidate); f_equal; lra.
    + monad_step.
      destruct (manufacturer_match original candidate); f_equal; lra.
  - monad_step.
    destruct (manufacturer_match original candidate); f_equal; lra.
Qed.

Lemma calculate_similarity_with_context_total
    (original candidate : Product) (all_products : list Product) :
  exists score : R,
    calculate_similarity_with_context original candidate all_products
    = Ok score.
Proof.
  destruct (calculate_name_similarity_with_context_Ok original all_products)
    as (idf_scores & avgdl & _ & _ & Hcand).
  destruct (Hcand candidate) as (p & s & _ & _ & _ & _ & Hname).
  eexists. by apply calculate_similarity_with_context_eq.
Qed.

(** ** The ranker *)

Section RankerProperties.

Variable scorer : Product -> Product -> list Product -> result R.

(** The scoring loop keeps the candidates and their order. *)
Lemma scoring_loop_Ok_inv (original : Product) (all_products l : list Product)
    (scored : list (R * Product)) :
  mapM (fun candidate =>
          score ← scorer original candidate all_products;
          mret (score, candidate)) l = Ok scored ->
  snd <$> scored = l
  /\ Forall (fun sp => scorer original (snd sp) all_products = Ok (fst sp))
            scored.
Proof.
  revert scored. induction l as [|c l IH]; intros scored H.
  - injection H as <-. by split.
  - cbn [mapM] in H.
    destruct (scorer original c all_products) as [s|e] eqn:Hs;
      [|discriminate].
    monad_step in H.
    destruct (mapM _ l) as [rest|e] eqn:Hrest; [|discriminate].
    monad_step in H. injection H as <-.
    destruct (IH rest eq_refl) as [Hsnd Hall].
    split; [cbn; by rewrite Hsnd | by constructor].
Qed.

Lemma scoring_loop_total (original : Product) (all_products l : list Product) :
  (forall c, c ∈ l -> exists s, scorer original c all_products = Ok s) ->
  exists scored,
    mapM (fun candidate =>
            score ← scorer original candidate all_products;
            mret (score, candidate)) l = Ok scored.
Proof.
  induction l as [|c l IH]; intros Htotal.
  - by exists [].
  - destruct (Htotal c) as [s Hs]; [by left|].
    destruct IH as [rest Hrest].
    { intros c' Hc'. apply Htotal. by right. }
    exists ((s, c) :: rest). cbn [mapM]. rewrite Hs. monad_step.
    rewrite Hrest. reflexivity.
Qed.

Lemma find_similar_products_outcome (self : SimilarProductsService)
    (original : Product) :
  exists ids,
    find_similar_products scorer self original = Ok ids
    /\ ranker_outcome scorer self original ids.
Proof.
  unfold find_similar_products.
  destruct (find_similar_products_body scorer self original)
    as [ids|e] eqn:Hbody; cbn [try_except].
  - exists ids. split; [reflexivity|].
    unfold find_similar_products_body in Hbody.
    destruct (get_products_by_category _ _ _) as [pool|e] eqn:Hpool;
      [|discriminate].
    monad_step in Hbody.
    destruct (filter (eligible original) pool) as [|c cs] eqn:Hfilter.
    + injection Hbody as <-. by eapply outcome_empty_pool.
    + destruct (score_candidates scorer original (c :: cs))
        as [scored|e] eqn:Hscored; [|discriminate].
      monad_step in Hbody. injection Hbody as <-.
      eapply outcome_ranked; eauto.
      * by rewrite Hfilter.
      * by rewrite Hfilter.
  - exists []. split; [reflexivity|]. by eapply outcome_caught.
Qed.

(** Every returned id is the id of an eligible product of the pool. *)
Lemma ranked_ids_eligible (original : Product) (pool : list Product)
    (scored : list (R * Product)) (n : Z) (i : string) :
  score_candidates scorer original (filter (eligible original) pool)
  = Ok scored ->
  i ∈ (fun sp => id (snd sp)) <$> slice_to (sort_reverse fst scored) n ->
  exists c, c ∈ pool /\ eligible original c /\ id c = i.
Proof.
  intros Hscored Hi.
  apply scoring_loop_Ok_inv in Hscored as [Hsnd _].
  apply list_elem_of_fmap in Hi as (sp & -> & Hsp).
  apply slice_to_subseteq in Hsp.
  rewrite sort_reverse_Permutation in Hsp.
  assert (Hc : snd sp ∈ filter (eligible original) pool).
  { rewrite <- Hsnd. by apply list_elem_of_fmap_2. }
  apply list_elem_of_filter in Hc as [Hel Hin].
  by exists (snd sp).
Qed.

Lemma slice_to_nil {A : Type} (n : Z) : slice_to (@nil A) n = [].
Proof. unfold slice_to. destruct (0 <=? n)%Z; apply take_nil. Qed.

(** With a scorer that does not raise on the filtered pool, the ranker
    returns the ranking. *)
Lemma find_similar_products_ranked (self : SimilarProductsService)
    (original : Product) (pool : list Product) :
  get_products_by_category (ecommerce_adapter self)
    (category_id original) 100 = Ok pool ->
  (forall c, c ∈ filter (eligible original) pool ->
             exists s, scorer original c (filter (eligible original) pool)
                       = Ok s) ->
  exists scored,
    score_candidates scorer original (filter (eligible original) pool)
    = Ok scored
    /\ snd <$> scored = filter (eligible original) pool
    /\ find_similar_products scorer self original
       = Ok ((fun sp => id (snd sp))
               <$> slice_to (sort_reverse fst scored) (limit self)).
Proof.
  intros Hfetch Htotal.
  destruct (scoring_loop_total original _ _ Htotal) as [scored Hscored].
  exists scored. split; [exact Hscored|].
  destruct (scoring_loop_Ok_inv _ _ _ _ Hscored) as [Hsnd _].
  split; [exact Hsnd|].
  unfold find_similar_products, find_similar_products_body.
  rewrite Hfetch. monad_step.
  destruct (filter (eligible original) pool) as [|c cs] eqn:Hfilter.
  - destruct scored; [|discriminate].
    cbn [try_except sort_reverse foldr]. by rewrite slice_to_nil.
  - unfold score_candidates. rewrite Hscored. reflexivity.
Qed.

Lemma fmap_eq_inj_on {A B : Type} (f : A -> B) (l : list A) (x y : A) :
  NoDup (f <$> l) -> x ∈ l -> y ∈ l -> f x = f y -> x = y.
Proof.
  induction l as [|a l IH]; intros Hnd Hx Hy Hf; [by inversion Hx|].
  cbn in Hnd. apply NoDup_cons in Hnd as [Ha Hnd].
  apply elem_of_cons in Hx as [->|Hx]; apply elem_of_cons in Hy as [->|Hy].
  - reflexivity.
  - exfalso. apply Ha. rewrite Hf. by apply list_elem_of_fmap_2.
  - exfalso. apply Ha. rewrite <- Hf. by apply list_elem_of_fmap_2.
  - by apply IH.
Qed.

End RankerProperties.

(** ** Further facts about the name similarity *)

Lemma name_similarity_without_names (original candidate : Product)
    (all_products : list Product) :
  calculate_name_similarity_with_context
    (without_names original) (without_names candidate) all_products = Ok 0%R.
Proof.
  destruct (calculate_name_similarity_with_context_Ok
              (without_names original) all_products)
    as (idf_scores & avgdl & _ & _ & Hcand).
  destruct (Hcand (without_names candidate))
    as (p & s & Hp & _ & _ & _ & ->).
  cbn [without_names name_secondary truthy_str andb].
  rewrite _calculate_bm25_score_empty in Hp by (by left).
  by injection Hp as <-.
Qed.

Lemma _calculate_bm25_score_max_not_positive
    (query_tokens doc_tokens : gset string) (idf_scores : gmap string R)
    (avgdl max_score : R) :
  (0 < avgdl)%R ->
  (forall t v, idf_scores !! t = Some v -> (0 < v)%R) ->
  set_fold (bm25_max_score_step doc_tokens idf_scores avgdl 1.5 0.75)
           (mret 0.0%R) query_tokens = Ok max_score ->
  ~ (max_score > 0.0)%R ->
  _calculate_bm25_score query_tokens doc_tokens idf_scores avgdl 1.5 0.75
  = Ok 0%R.
Proof.
  intros Havgdl Hidf Hmax Hnot. unfold _calculate_bm25_score.
  destruct (bool_decide (query_tokens = ∅) || bool_decide (doc_tokens = ∅)).
  { cbn. f_equal. lra. }
  unfold set_fold, mret, result_ret in *. cbn [compose] in *.
  destruct (bm25_loops_Ok doc_tokens idf_scores avgdl 1.5 0.75
              ltac:(lra) ltac:(lra) Havgdl Hidf (elements query_tokens))
    as (s & m & Hs & Hm & Hsm).
  rewrite Hm in Hmax. injection Hmax as ->.
  rewrite Hs, Hm. monad_step. rewrite decide_False by exact Hnot.
  monad_step. f_equal. rewrite Rmin_left; lra.
Qed.

Lemma sum_list_size_empty (documents : list (gset string)) :
  (forall doc, doc ∈ documents -> doc = ∅) ->
  sum_list (size <$> documents) = 0%nat.
Proof.
  induction documents as [|doc documents IH]; intros Hempty; [reflexivity|].
  cbn. rewrite (Hempty doc) by left. rewrite size_empty, IH; [reflexivity|].
  intros d Hd. apply Hempty. by right.
Qed.

(** A corpus whose documents are all empty: the average length is 0 and the
    name similarity is 0, no division by the average being reached. *)
Lemma name_similarity_empty_corpus (original candidate : Product)
    (all_products : list Product) :
  (forall doc, doc ∈ corpus_documents original all_products -> doc = ∅) ->
  average_doc_length (corpus_documents original all_products) = Ok 0%R
  /\ calculate_name_similarity_with_context original candidate all_products
     = Ok 0%R.
Proof.
  intros Hempty. split.
  - pose proof (sum_list_size_empty _ Hempty) as Hsum.
    pose proof (corpus_documents_original original all_products) as Hin.
    destruct (corpus_documents original all_products) as [|d0 documents];
      [by inversion Hin|].
    unfold average_doc_length. rewrite Hsum.
    rewrite pydiv_Ok.
    + f_equal. cbn [INR]. lra.
    + apply not_0_INR. cbn. lia.
  - destruct (calculate_name_similarity_with_context_Ok original all_products)
      as (idf_scores & avgdl & _ & _ & Hcand).
    destruct (Hcand candidate) as (p & s & Hp & Hs & _ & _ & ->).
    rewrite _calculate_bm25_score_empty in Hp.
    2:{ left. apply Hempty, corpus_documents_original. }
    injection Hp as <-.
    destruct (truthy_str (name_secondary original)) eqn:Hsec;
      cbn [andb]; [|reflexivity].
    rewrite _calculate_bm25_score_empty in Hs.
    2:{ left. by apply Hempty, corpus_documents_original_secondary. }
    injection Hs as <-.
    destruct (truthy_str (name_secondary candidate)); [|reflexivity].
    f_equal. apply Rmax_left. lra.
Qed.

(** ** A worked ranking *)

Lemma tok_reference :
  _tokenize_product_name "Gluten-Free Cookie Mix" = {[ "gluten"; "free"; "cookie" ]}.
Proof. vm_compute. reflexivity. Qed.
Lemma tok_c2 :
  _tokenize_product_name "Sugar Cookie Mix" = {[ "sugar"; "cookie" ]}.
Proof. vm_compute. reflexivity. Qed.
Lemma tok_c3 :
  _tokenize_product_name "Chocolate Cake Mix" = {[ "chocolate"; "cake" ]}.
Proof. vm_compute. reflexivity. Qed.

Lemma filter_pool :
  filter (eligible EndToEnd.reference) EndToEnd.pool = EndToEnd.pool.
Proof.
  unfold EndToEnd.pool. rewrite !filter_cons, filter_nil.
  rewrite !decide_True; [reflexivity|..]; (split; [discriminate|reflexivity]).
Qed.

Lemma price_tier_close (p : R) :
  (9 <= p <= 11)%R -> price_tier (Rabs (10 - p) / 10) = 1.0%R.
Proof.
  intros Hp. unfold price_tier. rewrite decide_True; [reflexivity|].
  unfold Rabs. destruct (Rcase_abs (10 - p)); lra.
Qed.

#[local] Opaque _tokenize_product_name.

(** The three composite scores of the example. *)
Lemma example_scores :
  exists s2 : R,
    calculate_similarity_with_context EndToEnd.reference EndToEnd.c1
      EndToEnd.pool = Ok 0.9%R
    /\ calculate_similarity_with_context EndToEnd.reference EndToEnd.c2
         EndToEnd.pool = Ok s2
    /\ calculate_similarity_with_context EndToEnd.reference EndToEnd.c3
         EndToEnd.pool = Ok 0.3%R
    /\ (0.3 < s2 <= 0.9)%R.
Proof.
  destruct (calculate_name_similarity_with_context_Ok
              EndToEnd.reference EndToEnd.pool)
    as (idf_scores & avgdl & Hidf & Havg & Hcand).
  pose proof (corpus_documents_original EndToEnd.reference EndToEnd.pool)
    as Hdoc.
  cbn [name EndToEnd.reference] in Hdoc. rewrite tok_reference in Hdoc.
  assert (Hpos : forall t v, idf_scores !! t = Some v -> (0 < v)%R).
  { intros t v. by apply (_calculate_bm25_idf_pos _ _ _ _ Hidf). }
  assert (Havgdl : (0 < avgdl)%R).
  { destruct (average_doc_length_Ok
                (corpus_documents EndToEnd.reference EndToEnd.pool))
      as (a & Ha & _ & Hgt).
    rewrite Havg in Ha. injection Ha as <-.
    apply (Hgt _ Hdoc). apply (bool_decide_unpack _). by vm_compute. }
  assert (Hcookie : is_Some (idf_scores !! "cookie")).
  { destruct (idf_covers_documents _ _ _ "cookie" Hidf Hdoc) as (w & -> & _);
      [|done].
    apply (bool_decide_unpack _). by vm_compute. }
  destruct (Hcand EndToEnd.c1) as (p1 & q1 & Hp1 & _ & _ & _ & Hn1).
  destruct (Hcand EndToEnd.c2) as (p2 & q2 & Hp2 & _ & _ & _ & Hn2).
  destruct (Hcand EndToEnd.c3) as (p3 & q3 & Hp3 & _ & _ & _ & Hn3).
  cbn [name name_secondary EndToEnd.reference EndToEnd.c1 EndToEnd.c2
       EndToEnd.c3 truthy_str andb] in *.
  rewrite tok_reference in Hp1, Hp2, Hp3. rewrite tok_c2 in Hp2.
  rewrite tok_c3 in Hp3.
  destruct (_calculate_bm25_score_match
              {[ "gluten"; "free"; "cookie" ]} {[ "gluten"; "free"; "cookie" ]}
              idf_scores avgdl Havgdl Hpos) as (v1 & Hv1 & _ & Hfull).
  { exists "cookie". repeat split; [..|exact Hcookie];
      apply (bool_decide_unpack _); by vm_compute. }
  rewrite Hv1 in Hp1. injection Hp1 as Heq1. subst p1.
  rewrite Hfull in Hn1 by done.
  destruct (_calculate_bm25_score_match
              {[ "gluten"; "free"; "cookie" ]} {[ "sugar"; "cookie" ]}
              idf_scores avgdl Havgdl Hpos) as (v2 & Hv2 & Hv201 & _).
  { exists "cookie". repeat split; [..|exact Hcookie];
      apply (bool_decide_unpack _); by vm_compute. }
  rewrite Hv2 in Hp2. injection Hp2 as Heq2. subst p2.
  rewrite _calculate_bm25_score_disjoint in Hp3; [|done|done|].
  2:{ apply (bool_decide_unpack _). by vm_compute. }
  injection Hp3 as Heq3. subst p3.
  apply calculate_similarity_with_context_eq in Hn1, Hn2, Hn3.
  assert (Hb : forall x : R, (9 <= x)%R -> bool_decide (x > 0)%R = true).
  { intros x Hx. apply bool_decide_eq_true_2. lra. }
  change (manufacturer_match EndToEnd.reference EndToEnd.c1) with false in Hn1.
  change (manufacturer_match EndToEnd.reference EndToEnd.c2) with false in Hn2.
  change (manufacturer_match EndToEnd.reference EndToEnd.c3) with false in Hn3.
  cbn [price EndToEnd.reference EndToEnd.c1 positive_price] in Hn1.
  cbn [price EndToEnd.reference EndToEnd.c2 positive_price] in Hn2.
  cbn [price EndToEnd.reference EndToEnd.c3 positive_price] in Hn3.
  rewrite !float_of_Some, !Hb in Hn1 by lra.
  rewrite !float_of_Some, !Hb in Hn2 by lra.
  rewrite !float_of_Some, !Hb in Hn3 by lra.
  cbn [andb] in Hn1, Hn2, Hn3.
  rewrite price_tier_close in Hn1 by lra.
  rewrite price_tier_close in Hn2 by lra.
  rewrite price_tier_close in Hn3 by lra.
  exists (v2 * 0.60 + 1.0 * 0.30 + 0)%R.
  split; [|split; [|split]].
  - rewrite Hn1. f_equal. lra.
  - exact Hn2.
  - rewrite Hn3. f_equal. lra.
  - lra.
Qed.

#[local] Transparent _tokenize_product_name.

(** The end-to-end example of the specification: the identical name at the
    identical price comes first, the partial name match second. *)
Example end_to_end_ranking :
  find_similar_products calculate_similarity_with_context
    EndToEnd.service EndToEnd.reference = Ok ["1"; "2"].
Proof.
  destruct example_scores as (s2 & Hs1 & Hs2 & Hs3 & Hbound).
  unfold find_similar_products, find_similar_products_body.
  cbn [get_products_by_category ecommerce_adapter EndToEnd.service].
  monad_step. rewrite filter_pool.
  unfold score_candidates, EndToEnd.pool in *. cbn [mapM].
  rewrite Hs1, Hs2, Hs3. monad_step.
  cbn [sort_reverse foldr].
  repeat (cbn [insert_desc fst]; rewrite decide_False by (cbn [fst]; lra)).
  reflexivity.
Qed.

(** * The claims *)

(** C1.  The composite score against a corpus owes to the names exactly 0.60
    times the BM25 score of the pair under the one model (idf table and
    average document length) built from the corpus of the request; when both
    products have a secondary name, 0.60 times the larger of the primary and
    the secondary BM25 score under that same model.  The share of the names
    is the score minus the score of the same pair with the names erased. *)
Theorem composite_name_contribution_is_weighted_bm25
    (original : Product) (all_products : list Product) :
  exists (idf_scores : gmap string R) (avgdl : R),
    _calculate_bm25_idf (corpus_documents original all_products)
    = Ok idf_scores
    /\ average_doc_length (corpus_documents original all_products) = Ok avgdl
    /\ forall candidate : Product,
      exists primary secondary score others : R,
        _calculate_bm25_score
          (_tokenize_product_name (name original))
          (_tokenize_product_name (name candidate))
          idf_scores avgdl 1.5 0.75 = Ok primary
        /\ _calculate_bm25_score
             (_tokenize_product_name (str_of (name_secondary original)))
             (_tokenize_product_name (str_of (name_secondary candidate)))
             idf_scores avgdl 1.5 0.75 = Ok secondary
        /\ calculate_similarity_with_context original candidate all_products
           = Ok score
        /\ calculate_similarity_with_context
             (without_names original) (without_names candidate) []
           = Ok others
        /\ (score - others
            = 0.60 * (if truthy_str (name_secondary original)
                         && truthy_str (name_secondary candidate)
                      then Rmax primary secondary
                      else primary))%R.
Proof.
  destruct (calculate_name_similarity_with_context_Ok original all_products)
    as (idf_scores & avgdl & Hidf & Havg & Hcand).
  exists idf_scores, avgdl. split; [exact Hidf|]. split; [exact Havg|].
  intros candidate.
  destruct (Hcand candidate) as (p & s & Hp & Hs & _ & _ & Hname).
  exists p, s. eexists. eexists.
  split; [exact Hp|]. split; [exact Hs|].
  split; [by apply calculate_similarity_with_context_eq|].
  split.
  { apply calculate_similarity_with_context_eq,
      name_similarity_without_names. }
  rewrite manufacturer_match_without_names.
  cbn [without_names price]. lra.
Qed.

(** C2.  Whatever the scorer does, the ids that [find_similar_products]
    returns never include the id of the reference product, each of them is
    the id of a product of the pool that is in stock, and, the ids of the
    pool being unique, none of them is the id of a product whose quantity is
    0 or less. *)
Theorem ranking_excludes_reference_and_out_of_stock
    (scorer : Product -> Product -> list Product -> result R)
    (self : SimilarProductsService) (original : Product)
    (pool : list Product) :
  get_products_by_category (ecommerce_adapter self)
    (category_id original) 100 = Ok pool ->
  exists ids : list string,
    find_similar_products scorer self original = Ok ids
    /\ (id original ∉ ids)
    /\ (forall i, i ∈ ids ->
          exists c, c ∈ pool /\ id c = i
                    /\ id c <> id original /\ (quantity c > 0)%Z)
    /\ (NoDup (id <$> pool) ->
        forall c, c ∈ pool -> (quantity c <= 0)%Z -> id c ∉ ids).
Proof.
  intros Hfetch.
  destruct (find_similar_products_outcome scorer self original)
    as (ids & Hids & Hout).
  exists ids. split; [exact Hids|].
  assert (Hel : forall i, i ∈ ids ->
                  exists c, c ∈ pool /\ eligible original c /\ id c = i).
  { destruct Hout as [e _ ->|pool' _ _ ->|pool' scored Hfetch' _ Hscored ->].
    - intros i Hi. by inversion Hi.
    - intros i Hi. by inversion Hi.
    - rewrite Hfetch in Hfetch'. injection Hfetch' as <-.
      intros i. by apply (ranked_ids_eligible scorer). }
  split; [|split].
  - intros Hin. destruct (Hel _ Hin) as (c & _ & [Hne _] & Heq). by apply Hne.
  - intros i Hi. destruct (Hel _ Hi) as (c & Hc & [Hne Hq] & Heq).
    by exists c.
  - intros Hnodup c Hc Hq Hin.
    destruct (Hel _ Hin) as (c' & Hc' & [_ Hq'] & Heq).
    assert (c' = c) as -> by (by eapply fmap_eq_inj_on).
    lia.
Qed.

Lemma ranking_excludes_reference_and_out_of_stock_witness :
  exists ids : list string,
    find_similar_products calculate_similarity_with_context
      Examples.service Examples.reference = Ok ids
    /\ (id Examples.reference ∉ ids)
    /\ (id Examples.sold_out ∉ ids).
Proof.
  destruct (ranking_excludes_reference_and_out_of_stock
              calculate_similarity_with_context
              Examples.service Examples.reference Examples.pool eq_refl)
    as (ids & Hids & Href & _ & Hstock).
  exists ids. split; [exact Hids|]. split; [exact Href|].
  apply Hstock.
  - apply (bool_decide_unpack _). vm_compute. exact I.
  - unfold Examples.pool. do 2 apply list_elem_of_further.
    apply list_elem_of_here.
  - cbn. lia.
Defined.

(** C3.  For a limit that is not negative, [find_similar_products] returns
    as many ids as the smaller of the limit and the number of eligible
    products of the pool (id other than the reference's, quantity above 0). *)
Theorem ranking_length_is_min_of_limit_and_eligible
    (self : SimilarProductsService) (original : Product)
    (pool : list Product) :
  get_products_by_category (ecommerce_adapter self)
    (category_id original) 100 = Ok pool ->
  (0 <= limit self)%Z ->
  exists ids : list string,
    find_similar_products calculate_similarity_with_context self original
    = Ok ids
    /\ Z.of_nat (length ids)
       = Z.min (limit self)
               (Z.of_nat (length (filter (eligible original) pool))).
Proof.
  intros Hfetch Hlimit.
  destruct (find_similar_products_ranked calculate_similarity_with_context
              self original pool Hfetch)
    as (scored & _ & Hsnd & Hids).
  { intros c _. apply calculate_similarity_with_context_total. }
  eexists. split; [exact Hids|].
  rewrite length_fmap, slice_to_length by exact Hlimit.
  rewrite sort_reverse_length, <- Hsnd, length_fmap. reflexivity.
Qed.

Lemma ranking_length_is_min_of_limit_and_eligible_witness :
  exists ids : list string,
    find_similar_products calculate_similarity_with_context
      Examples.service Examples.reference = Ok ids
    /\ length ids = 2%nat.
Proof.
  destruct (ranking_length_is_min_of_limit_and_eligible
              Examples.service Examples.reference Examples.pool eq_refl)
    as (ids & Hids & Hlen).
  - cbn. lia.
  - exists ids. split; [exact Hids|].
    assert (Hel : length (filter (eligible Examples.reference) Examples.pool)
                  = 2%nat).
    { unfold Examples.pool. rewrite !filter_cons.
      repeat case_decide; unfold eligible in *; cbn in *;
        (reflexivity || (exfalso; intuition (congruence || lia))). }
    rewrite Hel in Hlen. cbn in Hlen. lia.
Defined.

(** C4 (as the code has it).  Tokenizing "Gluten-Free Cookie Mix 600g" yields
    exactly the set of "gluten", "free" and "cookie": the quantity "600g" is
    stripped and the stop word "mix" is discarded, while "free" is not a stop
    word and stays. *)
Theorem tokenize_gluten_free_cookie_mix :
  _tokenize_product_name "Gluten-Free Cookie Mix 600g"
  = {[ "gluten"; "free"; "cookie" ]}
  /\ "mix" ∈ STOP_WORDS
  /\ "free" ∉ STOP_WORDS.
Proof.
  split; [vm_compute; reflexivity|].
  split; apply (bool_decide_unpack _); vm_compute; exact I.
Qed.

(** C4, refuted as stated: the token set is not that of "gluten" and
    "cookie" alone. *)
Lemma tokenize_gluten_free_cookie_mix_keeps_free :
  _tokenize_product_name "Gluten-Free Cookie Mix 600g"
  <> {[ "gluten"; "cookie" ]}.
Proof. apply (bool_decide_unpack _). vm_compute. exact I. Qed.

(** C5 (as the code has it).  In [calculate_product_similarity] the price
    term is the score minus the score of the same pair with the reference
    price erased.  It contributes when the reference price is positive and
    the candidate price is present and not zero, and then it is 0.30 times
    the tier of [d = |p1 - p2| / p1]: 1.0 for [d <= 0.20], 0.5 for
    [0.20 < d <= 0.50], 0.2 for [d > 0.50].  When the reference price is
    absent or not positive, or the candidate price is absent or zero, it
    contributes exactly 0. *)
Theorem price_term_contribution (original candidate : Product) :
  exists score base : R,
    calculate_product_similarity original candidate = Ok score
    /\ calculate_product_similarity (without_price original) candidate
       = Ok base
    /\ (forall p1 p2 : R,
          price original = Some p1 -> price candidate = Some p2 ->
          (0 < p1)%R -> p2 <> 0%R ->
          let d := (Rabs (p1 - p2) / p1)%R in
          ((d <= 0.20)%R /\ (score - base = 0.30 * 1.0)%R)
          \/ ((0.20 < d <= 0.50)%R /\ (score - base = 0.30 * 0.5)%R)
          \/ ((0.50 < d)%R /\ (score - base = 0.30 * 0.2)%R))
    /\ (price original = None \/ price candidate = None
        \/ (exists p1, price original = Some p1 /\ (p1 <= 0)%R)
        \/ price candidate = Some 0%R ->
        (score - base = 0)%R).
Proof.
  destruct (calculate_product_similarity_eq original candidate)
    as (n & Hn & _ & Hscore).
  destruct (calculate_product_similarity_eq (without_price original) candidate)
    as (n' & Hn' & _ & Hbase).
  rewrite name_similarity_without_price, Hn in Hn'. injection Hn' as <-.
  rewrite manufacturer_match_without_price, price_guard_without_price
    in Hbase.
  eexists. eexists. split; [exact Hscore|]. split; [exact Hbase|]. split.
  - intros p1 p2 Hp1 Hp2 Hpos Hnz d.
    assert (Hguard : price_guard original candidate = true).
    { unfold price_guard. rewrite Hp1, Hp2. cbn.
      rewrite !bool_decide_eq_true_2; [reflexivity|lra|exact Hnz|lra]. }
    rewrite Hguard, Hp1, Hp2, !float_of_Some. fold d. clearbody d.
    unfold price_tier. repeat case_decide.
    + left. split; [assumption|lra].
    + right. left. split; [lra|lra].
    + right. right. split; [lra|lra].
  - intros Hcase.
    assert (Hguard : price_guard original candidate = false).
    { unfold price_guard.
      destruct Hcase as [H|[H|[(p1 & H & Hle)|H]]]; rewrite H; cbn.
      - reflexivity.
      - apply andb_false_iff. left. apply andb_false_r.
      - apply andb_false_iff. right. apply bool_decide_eq_false_2. lra.
      - apply andb_false_iff. left. apply andb_false_iff. right.
        apply bool_decide_eq_false_2. tauto. }
    rewrite Hguard. lra.
Qed.

Lemma price_term_contribution_witness :
  exists score base : R,
    calculate_product_similarity Examples.reference Examples.cookie_mix
    = Ok score
    /\ calculate_product_similarity
         (without_price Examples.reference) Examples.cookie_mix = Ok base
    /\ (score - base = 0.30 * 1.0)%R.
Proof.
  destruct (price_term_contribution Examples.reference Examples.cookie_mix)
    as (score & base & Hscore & Hbase & Htier & _).
  exists score, base. split; [exact Hscore|]. split; [exact Hbase|].
  assert (Hd : (Rabs (10 - 12) / 10 = 0.2)%R).
  { rewrite Rabs_left by lra. lra. }
  destruct (Htier 10%R 12%R eq_refl eq_refl ltac:(lra) ltac:(lra))
    as [[_ H]|[[Hlt _]|[Hlt _]]]; [exact H|lra|lra].
Defined.

(** C5, refuted as stated: a candidate price that is not positive (here -5)
    still makes the price term contribute, 0.30 times the lowest tier. *)
Lemma price_term_with_negative_candidate_price :
  exists score base : R,
    price Examples.refund = Some (-5)%R
    /\ calculate_product_similarity Examples.reference Examples.refund
       = Ok score
    /\ calculate_product_similarity
         (without_price Examples.reference) Examples.refund = Ok base
    /\ (score - base = 0.30 * 0.2)%R
    /\ (score - base)%R <> 0%R.
Proof.
  destruct (calculate_product_similarity_eq Examples.reference Examples.refund)
    as (n & Hn & _ & Hscore).
  destruct (calculate_product_similarity_eq
              (without_price Examples.reference) Examples.refund)
    as (n' & Hn' & _ & Hbase).
  rewrite name_similarity_without_price, Hn in Hn'. injection Hn' as <-.
  rewrite manufacturer_match_without_price, price_guard_without_price
    in Hbase.
  assert (Hguard : price_guard Examples.reference Examples.refund = true).
  { unfold price_guard. cbn.
    rewrite !bool_decide_eq_true_2; [reflexivity|lra|lra|lra]. }
  assert (Htier : price_tier (Rabs (10 - -5) / 10) = 0.2%R).
  { rewrite Rabs_right by lra. unfold price_tier.
    rewrite !decide_False by lra. reflexivity. }
  rewrite Hguard in Hscore.
  cbn [Examples.reference Examples.refund price] in Hscore.
  rewrite !float_of_Some, Htier in Hscore.
  eexists. eexists. split; [reflexivity|].
  split; [exact Hscore|]. split; [exact Hbase|].
  split; lra.
Qed.

(** C6 (as the code has it).  [find_similar_products] never raises: an
    exception arising anywhere in its body (fetching the pool, scoring,
    sorting) is caught and an empty list is returned in its place, so nothing
    propagates to the caller.  An empty or fully filtered-out pool also
    yields an empty list.  With a positive limit these are the only two ways
    the result is empty. *)
Theorem ranker_catches_every_exception
    (scorer : Product -> Product -> list Product -> result R)
    (self : SimilarProductsService) (original : Product) :
  exists ids : list string,
    find_similar_products scorer self original = Ok ids
    /\ (raises (find_similar_products_body scorer self original) -> ids = [])
    /\ (forall pool,
          get_products_by_category (ecommerce_adapter self)
            (category_id original) 100 = Ok pool ->
          filter (eligible original) pool = [] -> ids = [])
    /\ ((0 < limit self)%Z -> ids = [] ->
        raises (find_similar_products_body scorer self original)
        \/ exists pool,
             get_products_by_category (ecommerce_adapter self)
               (category_id original) 100 = Ok pool
             /\ filter (eligible original) pool = []).
Proof.
  destruct (find_similar_products_outcome scorer self original)
    as (ids & Hids & Hout).
  exists ids. split; [exact Hids|].
  destruct Hout as [e Hbody ->|pool Hfetch Hfilter ->
                    |pool scored Hfetch Hfilter Hscored ->].
  - split; [done|]. split; [done|]. intros _ _. left. by exists e.
  - split; [done|]. split; [done|]. intros _ _. right. by exists pool.
  - split; [|split].
    + intros [e He]. unfold find_similar_products in Hids.
      rewrite He in Hids. cbn in Hids. by injection Hids as <-.
    + intros pool' Hfetch' Hfilter'.
      rewrite Hfetch in Hfetch'. injection Hfetch' as <-. contradiction.
    + intros Hlimit Hnil. exfalso.
      apply (f_equal length) in Hnil.
      apply scoring_loop_Ok_inv in Hscored as [Hsnd _].
      apply (f_equal length) in Hsnd. rewrite length_fmap in Hsnd.
      rewrite length_fmap in Hnil.
      pose proof (slice_to_length (sort_reverse fst scored) (limit self)
                    ltac:(lia)) as Hlen.
      rewrite sort_reverse_length, Hnil, Hsnd in Hlen.
      destruct (filter (eligible original) pool); [done|]. cbn in Hlen. lia.
Qed.

Lemma ranker_catches_every_exception_witness :
  exists ids : list string,
    find_similar_products calculate_similarity_with_context
      Examples.failing_service Examples.reference = Ok ids
    /\ ids = [].
Proof.
  destruct (ranker_catches_every_exception calculate_similarity_with_context
              Examples.failing_service Examples.reference)
    as (ids & Hids & Hcaught & _).
  exists ids. split; [exact Hids|].
  apply Hcaught. exists (EcommerceAPIError "timeout"). reflexivity.
Defined.

(** C6, refuted as stated: the adapter raises inside the ranker, the
    exception does not propagate, and the ranker returns an empty list on a
    path that is not the empty-pool path.  A limit of 0 is another such
    path: the pool has eligible products and the result is empty. *)
Lemma ranker_swallows_adapter_failure :
  find_similar_products_body calculate_similarity_with_context
    Examples.failing_service Examples.reference
  = Raise (EcommerceAPIError "timeout")
  /\ find_similar_products calculate_similarity_with_context
       Examples.failing_service Examples.reference
     = Ok []
  /\ find_similar_products calculate_similarity_with_context
       Examples.failing_service Examples.reference
     <> Raise (EcommerceAPIError "timeout")
  /\ Examples.cookie_mix ∈ filter (eligible Examples.reference) Examples.pool
  /\ find_similar_products calculate_similarity_with_context
       Examples.service_limit_0 Examples.reference
     = Ok [].
Proof.
  split; [reflexivity|]. split; [reflexivity|]. split; [discriminate|].
  split.
  - apply list_elem_of_filter. split.
    + split; [discriminate | reflexivity].
    + unfold Examples.pool. apply list_elem_of_further, list_elem_of_here.
  - destruct (find_similar_products_ranked calculate_similarity_with_context
                Examples.service_limit_0 Examples.reference Examples.pool
                eq_refl)
      as (scored & _ & _ & ->).
    + intros c _. apply calculate_similarity_with_context_total.
    + reflexivity.
Qed.

(** C7.  In a ranking call the scorer receives the filtered pool as
    [all_products]; the documents from which the idf table and the average
    document length are then built contain the tokenized name of the
    reference product, its tokenized secondary name when it has one, and the
    tokenized name and, where present, secondary name of every candidate of
    the filtered pool.  Hence every token of these names has an idf weight. *)
Theorem corpus_contains_reference_and_candidates
    (original : Product) (pool : list Product) :
  let candidates := filter (eligible original) pool in
  let documents := corpus_documents original candidates in
  exists (idf_scores : gmap string R) (avgdl : R),
    _calculate_bm25_idf documents = Ok idf_scores
    /\ average_doc_length documents = Ok avgdl
    /\ _tokenize_product_name (name original) ∈ documents
    /\ (truthy_str (name_secondary original) = true ->
        _tokenize_product_name (str_of (name_secondary original)) ∈ documents)
    /\ (forall c, c ∈ candidates ->
          _tokenize_product_name (name c) ∈ documents
          /\ (truthy_str (name_secondary c) = true ->
              _tokenize_product_name (str_of (name_secondary c)) ∈ documents))
    /\ (forall doc t, doc ∈ documents -> t ∈ doc ->
          exists w : R, idf_scores !! t = Some w /\ (0 < w)%R).
Proof.
  intros candidates documents.
  destruct (_calculate_bm25_idf_Ok documents) as (idf_scores & Hidf & _).
  destruct (average_doc_length_Ok documents) as (avgdl & Havg & _).
  exists idf_scores, avgdl.
  split; [exact Hidf|]. split; [exact Havg|].
  split; [apply corpus_documents_original|].
  split; [apply corpus_documents_original_secondary|].
  split.
  - intros c Hc. pose proof Hc as Hel.
    apply list_elem_of_filter in Hel as [[Hid _] _].
    by apply corpus_documents_candidate.
  - intros doc t. by apply idf_covers_documents.
Qed.

Lemma corpus_contains_reference_and_candidates_witness :
  _tokenize_product_name (name Examples.sugar_cookie)
  ∈ corpus_documents Examples.reference
      (filter (eligible Examples.reference) Examples.pool).
Proof.
  destruct (corpus_contains_reference_and_candidates
              Examples.reference Examples.pool)
    as (idf_scores & avgdl & _ & _ & _ & _ & Hcand & _).
  apply Hcand. apply list_elem_of_filter. split.
  - split; [discriminate | reflexivity].
  - unfold Examples.pool. do 3 apply list_elem_of_further.
    apply list_elem_of_here.
Defined.

(** C8.  [find_similar_products] pairs every candidate of the filtered pool
    with its composite score, in pool order, sorts the pairs in descending
    order of score, keeping those of equal score in the order they had in
    the filtered pool, and returns the ids of the first [limit] of them. *)
Theorem ranking_is_sorted_descending_and_stable
    (self : SimilarProductsService) (original : Product)
    (pool : list Product) :
  get_products_by_category (ecommerce_adapter self)
    (category_id original) 100 = Ok pool ->
  exists scored ranked : list (R * Product),
    score_candidates calculate_similarity_with_context original
      (filter (eligible original) pool) = Ok scored
    /\ snd <$> scored = filter (eligible original) pool
    /\ Forall (fun sp =>
                 calculate_similarity_with_context original (snd sp)
                   (filter (eligible original) pool) = Ok (fst sp))
              scored
    /\ find_similar_products calculate_similarity_with_context self original
       = Ok ((fun sp => id (snd sp)) <$> slice_to ranked (limit self))
    /\ Permutation ranked scored
    /\ descending fst ranked
    /\ (forall s : R,
          filter (fun sp => fst sp = s) ranked
          = filter (fun sp => fst sp = s) scored).
Proof.
  intros Hfetch.
  destruct (find_similar_products_ranked calculate_similarity_with_context
              self original pool Hfetch)
    as (scored & Hscored & Hsnd & Hids).
  { intros c _. apply calculate_similarity_with_context_total. }
  exists scored, (sort_reverse fst scored).
  split; [exact Hscored|]. split; [exact Hsnd|].
  split; [by apply scoring_loop_Ok_inv in Hscored as [_ Hall]|].
  split; [exact Hids|].
  split; [apply sort_reverse_Permutation|].
  split; [apply sort_reverse_descending|].
  intros s. apply sort_reverse_stable.
Qed.

Lemma ranking_is_sorted_descending_and_stable_witness :
  exists scored ranked : list (R * Product),
    score_candidates calculate_similarity_with_context Examples.reference
      (filter (eligible Examples.reference) Examples.pool) = Ok scored
    /\ find_similar_products calculate_similarity_with_context
         Examples.service Examples.reference
       = Ok ((fun sp => id (snd sp))
               <$> slice_to ranked (limit Examples.service))
    /\ descending fst ranked.
Proof.
  destruct (ranking_is_sorted_descending_and_stable
              Examples.service Examples.reference Examples.pool eq_refl)
    as (scored & ranked & Hscored & _ & _ & Hids & _ & Hdesc & _).
  exists scored, ranked.
  split; [exact Hscored|]. split; [exact Hids|]. exact Hdesc.
Defined.

(** C9.  No division of the scoring pipeline raises.  (1) With a positive
    reference price the price ratio is defined.  (2) With no documents the
    average document length is 1.0.  (3) The BM25 normalisation divides only
    by a positive maximum; when the maximum is not positive the score is 0,
    and when no query term has an idf weight the score is 0 whatever the
    average length, 0 included.  (4) When every document of the corpus is
    empty the average length is 0 and the name similarity is 0.  (5) The
    name similarity against a corpus and both composite scores return a
    value for all products. *)
Theorem scoring_divisions_never_raise :
  (forall price1 price2 : R,
      (0 < price1)%R ->
      exists v : R, _calculate_price_similarity price1 price2 = Ok v)
  /\ average_doc_length [] = Ok 1.0%R
  /\ (forall (query_tokens doc_tokens : gset string)
             (idf_scores : gmap string R) (avgdl max_score : R),
        (0 < avgdl)%R ->
        (forall t v, idf_scores !! t = Some v -> (0 < v)%R) ->
        set_fold (bm25_max_score_step doc_tokens idf_scores avgdl 1.5 0.75)
                 (mret 0.0%R) query_tokens = Ok max_score ->
        ~ (max_score > 0.0)%R ->
        _calculate_bm25_score query_tokens doc_tokens idf_scores avgdl
                              1.5 0.75 = Ok 0%R)
  /\ (forall (query_tokens doc_tokens : gset string)
             (idf_scores : gmap string R) (avgdl k1 b : R),
        (forall t, t ∈ query_tokens -> idf_scores !! t = None) ->
        _calculate_bm25_score query_tokens doc_tokens idf_scores avgdl k1 b
        = Ok 0%R)
  /\ (forall (original candidate : Product) (all_products : list Product),
        (forall doc, doc ∈ corpus_documents original all_products ->
                     doc = ∅) ->
        average_doc_length (corpus_documents original all_products) = Ok 0%R
        /\ calculate_name_similarity_with_context
             original candidate all_products = Ok 0%R)
  /\ (forall (original candidate : Product) (all_products : list Product),
        exists n : R,
          calculate_name_similarity_with_context
            original candidate all_products = Ok n)
  /\ (forall original candidate : Product,
        exists score : R,
          calculate_product_similarity original candidate = Ok score)
  /\ (forall (original candidate : Product) (all_products : list Product),
        exists score : R,
          calculate_similarity_with_context original candidate all_products
          = Ok score).
Proof.
  split.
  { intros price1 price2 Hpos.
    destruct (_calculate_price_similarity_Ok price1 price2) as (v & Hv & _);
      [lra|]. by exists v. }
  split; [reflexivity|].
  split; [apply _calculate_bm25_score_max_not_positive|].
  split; [apply _calculate_bm25_score_no_idf|].
  split; [apply name_similarity_empty_corpus|].
  split.
  { intros original candidate all_products.
    destruct (calculate_name_similarity_with_context_Ok original all_products)
      as (idf_scores & avgdl & _ & _ & Hcand).
    destruct (Hcand candidate) as (p & s & _ & _ & _ & _ & Hname).
    eexists. exact Hname. }
  split.
  { intros original candidate.
    destruct (calculate_product_similarity_eq original candidate)
      as (n & _ & _ & Hscore).
    eexists. exact Hscore. }
  apply calculate_similarity_with_context_total.
Qed.

Lemma scoring_divisions_never_raise_witness :
  exists v : R, _calculate_price_similarity 10 12 = Ok v.
Proof.
  apply (proj1 scoring_divisions_never_raise 10%R 12%R). lra.
Defined.

(** C10.  In a corpus of [N >= 3] documents, the idf weight that
    [_calculate_bm25_idf] gives a term occurring in exactly one document is
    strictly greater than the weight of a term occurring in exactly [N - 1]
    documents. *)
Theorem idf_rare_term_outweighs_common_term
    (documents : list (gset string)) (rare common : string) :
  (3 <= length documents)%nat ->
  doc_count rare documents = 1%nat ->
  doc_count common documents = (length documents - 1)%nat ->
  exists (idf_scores : gmap string R) (idf_rare idf_common : R),
    _calculate_bm25_idf documents = Ok idf_scores
    /\ idf_scores !! rare = Some idf_rare
    /\ idf_scores !! common = Some idf_common
    /\ (idf_common < idf_rare)%R.
Proof.
  intros HN Hrare Hcommon.
  destruct (_calculate_bm25_idf_Ok documents) as (idf_scores & Hidf & Hlook).
  exists idf_scores, (idf_weight (length documents) 1),
         (idf_weight (length documents) (length documents - 1)).
  split; [exact Hidf|].
  rewrite !Hlook, Hrare, Hcommon.
  destruct (length documents - 1)%nat eqn:Hpred; [lia|]. rewrite <- Hpred.
  repeat split. by apply idf_weight_rare_gt_common.
Qed.

Lemma idf_rare_term_outweighs_common_term_witness :
  exists (idf_scores : gmap string R) (idf_rare idf_common : R),
    _calculate_bm25_idf Examples.documents = Ok idf_scores
    /\ idf_scores !! "keto" = Some idf_rare
    /\ idf_scores !! "cookie" = Some idf_common
    /\ (idf_common < idf_rare)%R.
Proof.
  apply (idf_rare_term_outweighs_common_term Examples.documents
           "keto" "cookie").
  - cbn. lia.
  - vm_compute. reflexivity.
  - vm_compute. reflexivity.
Defined.

(** * Further properties *)

(** ** The tokenizer *)







(** ** Jaccard similarity and the corpus-free composite score *)

(** X2.  The Jaccard similarity does not depend on the order of its two
    arguments. *)
Theorem jaccard_similarity_symmetric (set1 set2 : gset string) :
  _jaccard_similarity set1 set2 = _jaccard_similarity set2 set1.
Proof.
  unfold _jaccard_similarity.
  rewrite (orb_comm (bool_decide (set1 = ∅))).
  assert (set1 ∩ set2 = set2 ∩ set1) as -> by set_solver.
  assert (set1 ∪ set2 = set2 ∪ set1) as -> by set_solver.
  reflexivity.
Qed.

(** X3.  The Jaccard similarity never raises and lies between 0 and 1; it
    is 1 exactly when the two sets are equal and not empty, and 0 exactly
    when they have no element in common. *)
Theorem jaccard_similarity_extremes (set1 set2 : gset string) :
  exists v : R,
    _jaccard_similarity set1 set2 = Ok v
    /\ (0 <= v <= 1)%R
    /\ (v = 1%R <-> set1 = set2 /\ set1 <> ∅)
    /\ (v = 0%R <-> set1 ∩ set2 = ∅).
Proof.
  unfold _jaccard_similarity.
  destruct (bool_decide (set1 = ∅) || bool_decide (set2 = ∅)) eqn:Hempty.
  { exists 0%R. split; [reflexivity|]. split; [lra|].
    apply orb_true_iff in Hempty.
    split; split.
    - lra.
    - intros [-> Hne]. destruct Hempty as [H|H];
        apply bool_decide_eq_true_1 in H; contradiction.
    - intros _. destruct Hempty as [H|H];
        apply bool_decide_eq_true_1 in H; subst; set_solver.
    - reflexivity. }
  apply orb_false_iff in Hempty as [H1 H2].
  apply bool_decide_eq_false_1 in H1, H2.
  assert (Hunion : set1 ∪ set2 <> ∅) by set_solver.
  rewrite bool_decide_eq_true_2 by exact Hunion.
  assert (Hsz : (0 < size (set1 ∪ set2))%nat).
  { assert (size (set1 ∪ set2) <> 0)%nat; [|lia].
    intros Hz. apply Hunion, leibniz_equiv. by apply size_empty_iff. }
  assert (Hsub : set1 ∩ set2 ⊆ set1 ∪ set2) by set_solver.
  pose proof (subseteq_size _ _ Hsub) as Hle.
  set (i := size (set1 ∩ set2)) in *. set (u := size (set1 ∪ set2)) in *.
  assert (Hu : (0 < INR u)%R) by (by apply lt_0_INR).
  assert (Hi : (0 <= INR i <= INR u)%R)
    by (split; [apply pos_INR | by apply le_INR]).
  assert (Hnz : INR u <> 0%R) by lra.
  rewrite pydiv_Ok by exact Hnz.
  pose proof (div_mul_cancel (INR i) (INR u) Hnz) as Hc.
  exists (INR i / INR u)%R. split; [reflexivity|].
  split; [split; [apply Rmult_le_pos; [lra|];
                  apply Rlt_le, Rinv_0_lt_compat; lra | nra]|].
  split; split.
  - intros H1'. rewrite H1' in Hc.
    assert (Hiu : i = u) by (apply INR_eq; lra).
    assert (Heq : set1 ∩ set2 = set1 ∪ set2).
    { apply leibniz_equiv, set_subseteq_size_equiv; [exact Hsub|].
      unfold i, u in Hiu. lia. }
    split; [set_solver | exact H1].
  - intros [-> _]. unfold i, u in *.
    assert (Hi2 : set2 ∩ set2 = set2) by set_solver.
    assert (Hu2 : set2 ∪ set2 = set2) by set_solver.
    rewrite Hi2, Hu2 in *. unfold Rdiv. by apply Rinv_r.
  - intros H0. rewrite H0 in Hc.
    assert (Hi0 : i = 0%nat) by (apply INR_eq; cbn; lra).
    apply leibniz_equiv. by apply size_empty_iff.
  - intros Hdisj. unfold i. rewrite Hdisj, size_empty. cbn. lra.
Qed.

(** X4.  [calculate_product_similarity] never raises and its score lies
    between 0 and 1. *)
Theorem calculate_product_similarity_range (original candidate : Product) :
  exists score : R,
    calculate_product_similarity original candidate = Ok score
    /\ (0 <= score <= 1)%R.
Proof.
  destruct (calculate_product_similarity_eq original candidate)
    as (n & _ & Hn & ->).
  eexists. split; [reflexivity|].
  assert (Htier : forall d, (0.2 <= price_tier d <= 1)%R).
  { intros d. unfold price_tier. repeat case_decide; lra. }
  destruct (price_guard original candidate);
    [pose proof (Htier (Rabs (float_of (price original)
                               - float_of (price candidate))
                        / float_of (price original))%R)|];
    destruct (manufacturer_match original candidate); lra.
Qed.

(** ** BM25 *)

Lemma idf_weight_decreasing (N df1 df2 : nat) :
  (df1 < df2)%nat -> (idf_weight N df2 < idf_weight N df1)%R.
Proof.
  intros Hlt. unfold idf_weight.
  assert (H1 : (0 <= INR df1)%R) by apply pos_INR.
  assert (H2 : (INR df1 < INR df2)%R) by (by apply lt_INR).
  assert (HN : (0 <= INR N)%R) by apply pos_INR.
  pose proof (div_mul_cancel (INR N - INR df1 + 0.5) (INR df1 + 0.5)
                ltac:(lra)) as Hq1.
  pose proof (div_mul_cancel (INR N - INR df2 + 0.5) (INR df2 + 0.5)
                ltac:(lra)) as Hq2.
  set (q1 := ((INR N - INR df1 + 0.5) / (INR df1 + 0.5))%R) in *.
  set (q2 := ((INR N - INR df2 + 0.5) / (INR df2 + 0.5))%R) in *.
  assert (Hq2pos : (0 < q2 + 1)%R) by nra.
  apply ln_increasing; [lra|].
  assert ((q2 + 1) * (INR df2 + 0.5) = (q1 + 1) * (INR df1 + 0.5))%R by lra.
  nra.
Qed.

Lemma doc_count_pos_iff (t : string) (documents : list (gset string)) :
  doc_count t documents <> 0%nat <-> exists doc, doc ∈ documents /\ t ∈ doc.
Proof.
  unfold doc_count. split.
  - intros Hne.
    destruct (filter (fun doc => t ∈ doc) documents) as [|doc l] eqn:Hf;
      [done|].
    exists doc. assert (Hin : doc ∈ filter (fun doc => t ∈ doc) documents)
      by (rewrite Hf; left).
    apply list_elem_of_filter in Hin. tauto.
  - intros (doc & Hdoc & Ht) Hz. apply length_zero_iff_nil in Hz.
    assert (Hin : doc ∈ filter (fun d => t ∈ d) documents)
      by (by apply list_elem_of_filter).
    rewrite Hz in Hin. by inversion Hin.
Qed.

(** X5.  [_calculate_bm25_idf] never raises.  Its table has a weight for
    exactly the terms that occur in some document; every weight is
    positive; and of two terms the one that occurs in fewer documents has
    the strictly greater weight. *)
Theorem idf_table_weighs_rarer_terms_more (documents : list (gset string)) :
  exists idf_scores : gmap string R,
    _calculate_bm25_idf documents = Ok idf_scores
    /\ (forall t, is_Some (idf_scores !! t)
                  <-> exists doc, doc ∈ documents /\ t ∈ doc)
    /\ (forall t w, idf_scores !! t = Some w -> (0 < w)%R)
    /\ (forall t u wt wu,
          idf_scores !! t = Some wt -> idf_scores !! u = Some wu ->
          (doc_count t documents < doc_count u documents)%nat ->
          (wu < wt)%R).
Proof.
  destruct (_calculate_bm25_idf_Ok documents) as (idf_scores & Hidf & Hlook).
  exists idf_scores. split; [exact Hidf|]. split; [|split].
  - intros t. rewrite <- doc_count_pos_iff, Hlook.
    destruct (doc_count t documents); split; intros H; try done.
  - intros t w. by apply (_calculate_bm25_idf_pos documents).
  - intros t u wt wu Ht Hu Hlt. rewrite Hlook in Ht, Hu.
    destruct (doc_count t documents) eqn:Hct; [done|].
    destruct (doc_count u documents) eqn:Hcu; [done|].
    injection Ht as <-. injection Hu as <-.
    by apply idf_weight_decreasing.
Qed.

Lemma corpus_avgdl_pos (original : Product) (all_products : list Product)
    (avgdl : R) :
  average_doc_length (corpus_documents original all_products) = Ok avgdl ->
  _tokenize_product_name (name original) <> ∅ ->
  (0 < avgdl)%R.
Proof.
  intros Havg Hne.
  destruct (average_doc_length_Ok (corpus_documents original all_products))
    as (a & Ha & _ & Hpos).
  rewrite Havg in Ha. injection Ha as <-.
  apply (Hpos (_tokenize_product_name (name original)));
    [apply corpus_documents_original | exact Hne].
Qed.

(** X6.  When the name of the reference has tokens and every one of them is
    a token of the candidate's name, the name similarity against the corpus
    is 1, whatever else the candidate's name holds and whatever the corpus. *)
Theorem name_similarity_is_1_when_reference_tokens_covered
    (original candidate : Product) (all_products : list Product) :
  _tokenize_product_name (name original) <> ∅ ->
  _tokenize_product_name (name original)
  ⊆ _tokenize_product_name (name candidate) ->
  calculate_name_similarity_with_context original candidate all_products
  = Ok 1%R.
Proof.
  intros Hne Hsub.
  destruct (calculate_name_similarity_with_context_Ok original all_products)
    as (idf_scores & avgdl & Hidf & Havg & Hcand).
  destruct (Hcand candidate) as (p & s & Hp & _ & _ & Hs01 & ->).
  pose proof (corpus_avgdl_pos _ _ _ Havg Hne) as Havgdl.
  apply set_choose_L in Hne as [t Ht].
  destruct (_calculate_bm25_score_match
              (_tokenize_product_name (name original))
              (_tokenize_product_name (name candidate))
              idf_scores avgdl Havgdl) as (v & Hv & _ & Hfull).
  - intros u w. by apply (_calculate_bm25_idf_pos _ _ _ _ Hidf).
  - exists t. split; [exact Ht|]. split; [by apply Hsub|].
    destruct (idf_covers_documents _ _ _ t Hidf
                (corpus_documents_original original all_products) Ht)
      as (w & -> & _). done.
  - rewrite Hv in Hp. injection Hp as Hpv. subst p.
    rewrite (Hfull Hsub).
    destruct (truthy_str (name_secondary original)
              && truthy_str (name_secondary candidate)); [|reflexivity].
    f_equal. apply Rmax_left. lra.
Qed.

Lemma name_similarity_is_1_when_reference_tokens_covered_witness :
  calculate_name_similarity_with_context
    Examples.reference Examples.cookie_mix Examples.pool = Ok 1%R.
Proof.
  apply name_similarity_is_1_when_reference_tokens_covered.
  - cbn [name Examples.reference]. rewrite tok_reference.
    apply (bool_decide_unpack _). vm_compute. exact I.
  - cbn [name Examples.reference Examples.cookie_mix]. reflexivity.
Defined.

(** X7.  For a pair of products that do not both have a secondary name, the
    name similarity against the corpus is positive exactly when the two
    primary names have a token in common. *)
Theorem name_similarity_positive_iff_shared_token
    (original candidate : Product) (all_products : list Product) :
  truthy_str (name_secondary original)
  && truthy_str (name_secondary candidate) = false ->
  exists v : R,
    calculate_name_similarity_with_context original candidate all_products
    = Ok v
    /\ ((0 < v)%R
        <-> exists t, t ∈ _tokenize_product_name (name original)
                      /\ t ∈ _tokenize_product_name (name candidate)).
Proof.
  intros Hsec.
  destruct (calculate_name_similarity_with_context_Ok original all_products)
    as (idf_scores & avgdl & Hidf & Havg & Hcand).
  destruct (Hcand candidate) as (p & s & Hp & _ & _ & _ & ->).
  rewrite Hsec. exists p. split; [reflexivity|].
  assert (Hpos : forall u w, idf_scores !! u = Some w -> (0 < w)%R).
  { intros u w. by apply (_calculate_bm25_idf_pos _ _ _ _ Hidf). }
  destruct (decide (_tokenize_product_name (name original) = ∅)) as [He|Hne].
  { rewrite _calculate_bm25_score_empty in Hp by (by left).
    injection Hp as <-. split; [lra|].
    intros (t & Ht & _). rewrite He in Ht. by apply not_elem_of_empty in Ht. }
  pose proof (corpus_avgdl_pos _ _ _ Havg Hne) as Havgdl.
  split.
  - intros Hv.
    destruct (set_choose_or_empty
                (_tokenize_product_name (name original)
                 ∩ _tokenize_product_name (name candidate)))
      as [[t Ht]|Hdisj].
    + exists t. by apply elem_of_intersection in Ht.
    + rewrite _calculate_bm25_score_disjoint in Hp; [|done|done|].
      * injection Hp as <-. lra.
      * intros t Hq Hd. apply (not_elem_of_empty (C := gset string) t).
        rewrite <- (leibniz_equiv _ _ Hdisj). by apply elem_of_intersection.
  - intros (t & Hq & Hd).
    destruct (_calculate_bm25_score_match
                (_tokenize_product_name (name original))
                (_tokenize_product_name (name candidate))
                idf_scores avgdl Havgdl Hpos) as (v & Hv & Hv01 & _).
    + exists t. split; [exact Hq|]. split; [exact Hd|].
      destruct (idf_covers_documents _ _ _ t Hidf
                  (corpus_documents_original original all_products) Hq)
        as (w & -> & _). done.
    + rewrite Hv in Hp. injection Hp as <-. lra.
Qed.

Lemma name_similarity_positive_iff_shared_token_witness :
  exists v : R,
    calculate_name_similarity_with_context
      Examples.reference Examples.sugar_cookie Examples.pool = Ok v
    /\ (0 < v)%R.
Proof.
  destruct (name_similarity_positive_iff_shared_token
              Examples.reference Examples.sugar_cookie Examples.pool eq_refl)
    as (v & Hv & Hiff).
  exists v. split; [exact Hv|]. apply Hiff. exists "cookie".
  cbn [name Examples.reference Examples.sugar_cookie].
  rewrite tok_reference, tok_c2.
  split; apply (bool_decide_unpack _); vm_compute; exact I.
Defined.

Lemma corpus_documents_skips_reference_id (original : Product)
    (all_products : list Product) :
  corpus_documents original all_products
  = corpus_documents original
      (filter (fun p => id p <> id original) all_products).
Proof.
  unfold corpus_documents. f_equal.
  induction all_products as [|p all_products IH]; [reflexivity|].
  rewrite filter_cons. cbn [flat_map]. case_decide as Hid.
  - cbn [flat_map]. apply String.eqb_neq in Hid. by rewrite Hid, IH.
  - rewrite Hid, String.eqb_refl. exact IH.
Qed.

(** X8.  The products of [all_products] that have the id of the reference
    are left out of the corpus: the name similarity is the same as with
    these products removed from the pool, so a pool that contains the
    reference itself scores like one that does not. *)
Theorem name_similarity_ignores_products_with_reference_id
    (original candidate : Product) (all_products : list Product) :
  calculate_name_similarity_with_context original candidate all_products
  = calculate_name_similarity_with_context original candidate
      (filter (fun p => id p <> id original) all_products).
Proof.
  unfold calculate_name_similarity_with_context.
  rewrite <- corpus_documents_skips_reference_id. reflexivity.
Qed.

(** ** Price proximity *)

Lemma price_tier_antitone (d d' : R) :
  (d <= d')%R -> (price_tier d' <= price_tier d)%R.
Proof. intros H. unfold price_tier. repeat case_decide; lra. Qed.

(** X9.  For a positive reference price the price similarity never grows
    with the distance of the candidate's price from it. *)
Theorem price_similarity_antitone_in_distance (price1 price2 price2' : R) :
  (0 < price1)%R ->
  (Rabs (price1 - price2) <= Rabs (price1 - price2'))%R ->
  exists v v' : R,
    _calculate_price_similarity price1 price2 = Ok v
    /\ _calculate_price_similarity price1 price2' = Ok v'
    /\ (v' <= v)%R.
Proof.
  intros Hpos Hle.
  rewrite !_calculate_price_similarity_tier by lra.
  eexists. eexists. split; [reflexivity|]. split; [reflexivity|].
  apply price_tier_antitone. apply Rmult_le_compat_r; [|exact Hle].
  apply Rlt_le, Rinv_0_lt_compat, Hpos.
Qed.

Lemma price_similarity_antitone_in_distance_witness :
  exists v v' : R,
    _calculate_price_similarity 10 11 = Ok v
    /\ _calculate_price_similarity 10 14 = Ok v'
    /\ (v' <= v)%R.
Proof.
  apply price_similarity_antitone_in_distance; [lra|].
  rewrite !Rabs_left by lra. lra.
Defined.



(** ** BM25 scoring outside the pipeline *)

Section BM25ZeroAverage.

Variables (doc_tokens : gset string) (idf_scores : gmap string R).
Variables (k1 b : R).

Lemma pydiv_by_zero (x : R) : pydiv x 0 = Raise ZeroDivisionError.
Proof. unfold pydiv. by rewrite decide_True. Qed.

Lemma bm25_score_loop_zero_average (l : list string) :
  foldr (bm25_score_step doc_tokens idf_scores 0 k1 b) (Ok 0.0%R) l
  = Raise ZeroDivisionError
  \/ exists s, foldr (bm25_score_step doc_tokens idf_scores 0 k1 b)
                     (Ok 0.0%R) l = Ok s.
Proof.
  induction l as [|t l [IH|[s IH]]]; cbn [foldr].
  - right. by eexists.
  - left. by rewrite IH.
  - rewrite IH. unfold bm25_score_step. monad_step.
    destruct (idf_scores !! t); [|right; by eexists].
    case_decide; [right; by eexists|].
    rewrite pydiv_by_zero. by left.
Qed.

Lemma bm25_max_loop_zero_average (l : list string) :
  foldr (bm25_max_score_step doc_tokens idf_scores 0 k1 b) (Ok 0.0%R) l
  = Raise ZeroDivisionError
  \/ (foldr (bm25_max_score_step doc_tokens idf_scores 0 k1 b) (Ok 0.0%R) l
      = Ok 0.0%R
      /\ forall t, t ∈ l -> idf_scores !! t = None).
Proof.
  induction l as [|t l [IH|[IH Hnone]]]; cbn [foldr].
  - right. split; [reflexivity|]. intros t Ht. by inversion Ht.
  - left. by rewrite IH.
  - rewrite IH. unfold bm25_max_score_step. monad_step.
    destruct (idf_scores !! t) eqn:Ht.
    + left. by rewrite pydiv_by_zero.
    + right. split; [reflexivity|]. intros u Hu.
      apply elem_of_cons in Hu as [->|Hu]; [exact Ht | by apply Hnone].
Qed.

End BM25ZeroAverage.

(** X11.  [_calculate_bm25_score] itself does not guard the average document
    length: called with an average of 0, a non-empty document and a query
    term that has an idf weight, it raises [ZeroDivisionError]. *)
Theorem bm25_score_raises_on_zero_average
    (query_tokens doc_tokens : gset string) (idf_scores : gmap string R)
    (k1 b : R) :
  doc_tokens <> ∅ ->
  (exists t, t ∈ query_tokens /\ is_Some (idf_scores !! t)) ->
  _calculate_bm25_score query_tokens doc_tokens idf_scores 0 k1 b
  = Raise ZeroDivisionError.
Proof.
  intros Hd (t & Ht & Hw). unfold _calculate_bm25_score.
  rewrite bool_decide_eq_false_2 by (intros ->; by apply not_elem_of_empty in Ht).
  rewrite bool_decide_eq_false_2 by exact Hd. cbn [orb].
  unfold set_fold, mret, result_ret. cbn [compose].
  destruct (bm25_score_loop_zero_average doc_tokens idf_scores k1 b
              (elements query_tokens)) as [->|[s ->]]; [reflexivity|].
  monad_step.
  destruct (bm25_max_loop_zero_average doc_tokens idf_scores k1 b
              (elements query_tokens)) as [->|[_ Hnone]]; [reflexivity|].
  rewrite (Hnone t) in Hw by (by apply elem_of_elements).
  by destruct Hw.
Qed.

Lemma bm25_score_raises_on_zero_average_witness :
  _calculate_bm25_score {[ "cookie" ]} {[ "cookie" ]} {[ "cookie" := 1%R ]}
                        0 1.5 0.75
  = Raise ZeroDivisionError.
Proof.
  apply bm25_score_raises_on_zero_average.
  - apply (bool_decide_unpack _). vm_compute. exact I.
  - exists "cookie". split.
    + by apply elem_of_singleton.
    + rewrite lookup_singleton_eq. by eexists.
Defined.

(** ** BM25: a query term that the document lacks *)

Section BM25Strict.

Variables (doc_tokens : gset string) (idf_scores : gmap string R).
Variables (avgdl k1 b : R).

Hypothesis Hk1 : (0 <= k1)%R.
Hypothesis Hb : (0 <= b <= 1)%R.
Hypothesis Havgdl : (0 < avgdl)%R.
Hypothesis Hidf : forall t v, idf_scores !! t = Some v -> (0 < v)%R.

(** A weighted query term outside the document adds to the maximum only. *)
Lemma bm25_loops_strict (l : list string) :
  (exists t, t ∈ l /\ (t ∉ doc_tokens) /\ is_Some (idf_scores !! t)) ->
  exists score max_score : R,
    foldr (bm25_score_step doc_tokens idf_scores avgdl k1 b) (Ok 0.0%R) l
    = Ok score
    /\ foldr (bm25_max_score_step doc_tokens idf_scores avgdl k1 b)
             (Ok 0.0%R) l = Ok max_score
    /\ (0 <= score < max_score)%R.
Proof.
  induction l as [|t l IH]; intros (t0 & Ht0 & Hout & Hw);
    [by inversion Ht0|].
  destruct (bm25_loops_spec doc_tokens idf_scores avgdl k1 b
              Hk1 Hb Havgdl Hidf l) as (s & m & Hs & Hm & Hsm & _).
  assert (Htail : t0 ∈ l -> (s < m)%R).
  { intros Hin. destruct IH as (s' & m' & Hs' & Hm' & Hlt).
    - by exists t0.
    - rewrite Hs in Hs'. rewrite Hm in Hm'.
      injection Hs' as <-. injection Hm' as <-. lra. }
  cbn [foldr]. rewrite Hs, Hm.
  unfold bm25_score_step, bm25_max_score_step. cbn.
  destruct (idf_scores !! t) as [idf|] eqn:Ht.
  2:{ exists s, m. split; [reflexivity|]. split; [reflexivity|].
      apply elem_of_cons in Ht0 as [->|Hin];
        [rewrite Ht in Hw; by destruct Hw|].
      split; [lra | by apply Htail]. }
  apply Hidf in Ht.
  set (r := (INR (size doc_tokens) / avgdl)%R).
  assert (Hr : (0 <= r)%R).
  { apply Rmult_le_pos; [apply pos_INR|].
    apply Rlt_le, Rinv_0_lt_compat, Havgdl. }
  assert (Hbr : (0 <= b * r)%R) by (apply Rmult_le_pos; lra).
  assert (Hkr : (0 <= k1 * (1.0 - b + b * r))%R)
    by (apply Rmult_le_pos; lra).
  assert (Hden : (1 <= 1.0 + k1 * (1.0 - b + b * r))%R) by lra.
  set (q := ((k1 + 1.0) / (1.0 + k1 * (1.0 - b + b * r)))%R).
  assert (Hq : (0 < q)%R) by (apply Rdiv_lt_0_compat; lra).
  assert (Hiq : (0 < idf * q)%R) by (apply Rmult_lt_0_compat; lra).
  assert (Havg : avgdl <> 0%R) by lra.
  rewrite !(pydiv_Ok _ avgdl Havg). cbn. fold r.
  rewrite (pydiv_Ok (k1 + 1.0)) by lra. cbn. fold q.
  case_bool_decide as Hin.
  - rewrite decide_False by lra.
    rewrite pydiv_Ok by lra. cbn.
    replace (1.0 * (k1 + 1.0) / (1.0 + k1 * (1.0 - b + b * r)))%R
      with q by (unfold q; f_equal; lra).
    exists (s + idf * q)%R, (m + idf * q)%R.
    split; [reflexivity|]. split; [reflexivity|].
    apply elem_of_cons in Ht0 as [->|Hin0]; [contradiction|].
    pose proof (Htail Hin0). lra.
  - rewrite decide_True by reflexivity.
    exists s, (m + idf * q)%R.
    split; [reflexivity|]. split; [reflexivity|]. lra.
Qed.

End BM25Strict.

Lemma _calculate_bm25_score_lt_1 (query_tokens doc_tokens : gset string)
    (idf_scores : gmap string R) (avgdl : R) :
  (0 < avgdl)%R ->
  (forall t v, idf_scores !! t = Some v -> (0 < v)%R) ->
  (exists t, t ∈ query_tokens /\ (t ∉ doc_tokens)
             /\ is_Some (idf_scores !! t)) ->
  exists v : R,
    _calculate_bm25_score query_tokens doc_tokens idf_scores avgdl 1.5 0.75
    = Ok v
    /\ (0 <= v < 1)%R.
Proof.
  intros Havgdl Hidf (t & Hq & Hd & Hw). unfold _calculate_bm25_score.
  destruct (bool_decide (query_tokens = ∅) || bool_decide (doc_tokens = ∅)).
  { exists 0.0%R. split; [reflexivity | lra]. }
  unfold set_fold, mret, result_ret. cbn [compose].
  destruct (bm25_loops_strict doc_tokens idf_scores avgdl 1.5 0.75
              ltac:(lra) ltac:(lra) Havgdl Hidf (elements query_tokens))
    as (s & m & -> & -> & Hsm).
  { exists t. by rewrite elem_of_elements. }
  monad_step. rewrite decide_True by lra.
  rewrite pydiv_Ok by lra. monad_step.
  pose proof (div_mul_cancel s m ltac:(lra)) as Hc.
  assert (Hq01 : (0 <= s / m < 1)%R).
  { split; [|nra].
    apply Rmult_le_pos; [lra|]. apply Rlt_le, Rinv_0_lt_compat. lra. }
  exists (s / m)%R. rewrite Rmin_unit_interval by lra. by split.
Qed.

(** X12.  For a pair of products that do not both have a secondary name,
    the name similarity against the corpus is 1 exactly when the name of
    the reference has tokens and all of them are tokens of the candidate's
    name: a token of the reference that the candidate lacks keeps the
    similarity below 1, and extra tokens of the candidate do not. *)
Theorem name_similarity_is_1_iff_reference_tokens_covered
    (original candidate : Product) (all_products : list Product) :
  truthy_str (name_secondary original)
  && truthy_str (name_secondary candidate) = false ->
  exists v : R,
    calculate_name_similarity_with_context original candidate all_products
    = Ok v
    /\ (0 <= v <= 1)%R
    /\ (v = 1%R
        <-> _tokenize_product_name (name original) <> ∅
            /\ _tokenize_product_name (name original)
               ⊆ _tokenize_product_name (name candidate)).
Proof.
  intros Hsec.
  destruct (calculate_name_similarity_with_context_Ok original all_products)
    as (idf_scores & avgdl & Hidf & Havg & Hcand).
  destruct (Hcand candidate) as (p & s & Hp & _ & Hp01 & _ & ->).
  rewrite Hsec. exists p. split; [reflexivity|]. split; [exact Hp01|].
  assert (Hpos : forall u w, idf_scores !! u = Some w -> (0 < w)%R).
  { intros u w. by apply (_calculate_bm25_idf_pos _ _ _ _ Hidf). }
  destruct (decide (_tokenize_product_name (name original) = ∅)) as [He|Hne].
  { rewrite _calculate_bm25_score_empty in Hp by (by left).
    injection Hp as <-. split; [lra | by intros [? _]]. }
  pose proof (corpus_avgdl_pos _ _ _ Havg Hne) as Havgdl.
  assert (Hweighted : forall t, t ∈ _tokenize_product_name (name original) ->
                                is_Some (idf_scores !! t)).
  { intros t Ht.
    destruct (idf_covers_documents _ _ _ t Hidf
                (corpus_documents_original original all_products) Ht)
      as (w & -> & _). done. }
  split.
  - intros ->. split; [exact Hne|]. intros t Ht.
    destruct (decide (t ∈ _tokenize_product_name (name candidate)))
      as [Hin|Hout]; [exact Hin|].
    destruct (_calculate_bm25_score_lt_1
                (_tokenize_product_name (name original))
                (_tokenize_product_name (name candidate))
                idf_scores avgdl Havgdl Hpos) as (v & Hv & Hv1).
    + exists t. split; [exact Ht|]. split; [exact Hout | by apply Hweighted].
    + rewrite Hv in Hp. injection Hp as Hpv. lra.
  - intros [_ Hsub]. apply set_choose_L in Hne as [t Ht].
    destruct (_calculate_bm25_score_match
                (_tokenize_product_name (name original))
                (_tokenize_product_name (name candidate))
                idf_scores avgdl Havgdl Hpos) as (v & Hv & _ & Hfull).
    + exists t. split; [exact Ht|]. split; [by apply Hsub|].
      by apply Hweighted.
    + rewrite Hv in Hp. injection Hp as <-. by apply Hfull.
Qed.

Lemma name_similarity_is_1_iff_reference_tokens_covered_witness :
  exists v : R,
    calculate_name_similarity_with_context
      Examples.reference Examples.sugar_cookie Examples.pool = Ok v
    /\ (0 <= v <= 1)%R
    /\ v <> 1%R.
Proof.
  destruct (name_similarity_is_1_iff_reference_tokens_covered
              Examples.reference Examples.sugar_cookie Examples.pool eq_refl)
    as (v & Hv & Hv01 & Hiff).
  exists v. split; [exact Hv|]. split; [exact Hv01|].
  intros H1. apply Hiff in H1 as [_ Hsub]. revert Hsub.
  cbn [name Examples.reference Examples.sugar_cookie].
  rewrite tok_reference, tok_c2.
  apply (bool_decide_unpack _). vm_compute. exact I.
Defined.

(** ** The ranker *)

Lemma slice_to_sublist {A : Type} (l : list A) (n : Z) :
  slice_to l n `sublist_of` l.
Proof. unfold slice_to. destruct (0 <=? n)%Z; apply sublist_take. Qed.

Lemma scored_ids_NoDup
    (scorer : Product -> Product -> list Product -> result R)
    (original : Product) (pool : list Product)
    (scored : list (R * Product)) (n : Z) :
  NoDup (id <$> pool) ->
  score_candidates scorer original (filter (eligible original) pool)
  = Ok scored ->
  NoDup ((fun sp => id (snd sp)) <$> slice_to (sort_reverse fst scored) n).
Proof.
  intros Hnd Hscored.
  apply scoring_loop_Ok_inv in Hscored as [Hsnd _].
  eapply sublist_NoDup; [|apply fmap_sublist, slice_to_sublist].
  rewrite sort_reverse_Permutation.
  assert (Heq : (fun sp : R * Product => id (snd sp)) <$> scored
                = id <$> (snd <$> scored)).
  { rewrite <- list_fmap_compose. reflexivity. }
  rewrite Heq, Hsnd.
  eapply sublist_NoDup; [exact Hnd | apply fmap_sublist, sublist_filter].
Qed.

(** X13.  When the products of the pool have pairwise distinct ids, no id
    is returned twice, whatever the scorer does. *)
Theorem ranking_has_no_duplicate_ids
    (scorer : Product -> Product -> list Product -> result R)
    (self : SimilarProductsService) (original : Product)
    (pool : list Product) :
  get_products_by_category (ecommerce_adapter self)
    (category_id original) 100 = Ok pool ->
  NoDup (id <$> pool) ->
  exists ids : list string,
    find_similar_products scorer self original = Ok ids /\ NoDup ids.
Proof.
  intros Hfetch Hnd.
  destruct (find_similar_products_outcome scorer self original)
    as (ids & Hids & Hout).
  exists ids. split; [exact Hids|].
  destruct Hout as [e _ ->|pool' _ _ ->|pool' scored Hfetch' _ Hscored ->];
    [constructor | constructor |].
  rewrite Hfetch in Hfetch'. injection Hfetch' as <-.
  by eapply scored_ids_NoDup.
Qed.

Lemma ranking_has_no_duplicate_ids_witness :
  exists ids : list string,
    find_similar_products calculate_similarity_with_context
      Examples.service Examples.reference = Ok ids
    /\ NoDup ids.
Proof.
  apply (ranking_has_no_duplicate_ids calculate_similarity_with_context
           Examples.service Examples.reference Examples.pool eq_refl).
  apply (bool_decide_unpack _). vm_compute. exact I.
Defined.

Lemma slice_to_negative_length {A : Type} (l : list A) (n : Z) :
  (n < 0)%Z ->
  length (slice_to l n) = (length l - Z.to_nat (- n))%nat.
Proof.
  intros Hn. unfold slice_to.
  destruct (0 <=? n)%Z eqn:Hle; [apply Z.leb_le in Hle; lia|].
  rewrite length_take. lia.
Qed.

(** X14.  A negative limit does not give an empty result: as [scored[:limit]]
    then drops the last [-limit] entries of the ranking, the ranker returns
    the ids of all eligible products but the [-limit] lowest ranked. *)
Theorem negative_limit_drops_lowest_ranked
    (scorer : Product -> Product -> list Product -> result R)
    (self : SimilarProductsService) (original : Product)
    (pool : list Product) :
  get_products_by_category (ecommerce_adapter self)
    (category_id original) 100 = Ok pool ->
  (forall c, c ∈ filter (eligible original) pool ->
             exists s, scorer original c (filter (eligible original) pool)
                       = Ok s) ->
  (limit self < 0)%Z ->
  exists (ids : list string) (scored : list (R * Product)),
    find_similar_products scorer self original = Ok ids
    /\ score_candidates scorer original (filter (eligible original) pool)
       = Ok scored
    /\ (ids ++ ((fun sp => id (snd sp))
                  <$> drop (length ids) (sort_reverse fst scored)))%list
       = (fun sp => id (snd sp)) <$> sort_reverse fst scored
    /\ length ids
       = (length (filter (eligible original) pool)
          - Z.to_nat (- limit self))%nat.
Proof.
  intros Hfetch Htotal Hlimit.
  destruct (find_similar_products_ranked scorer self original pool
              Hfetch Htotal) as (scored & Hscored & Hsnd & Hids).
  eexists. exists scored. split; [exact Hids|]. split; [exact Hscored|].
  assert (Hlen : length ((fun sp : R * Product => id (snd sp))
                           <$> slice_to (sort_reverse fst scored) (limit self))
                 = (length (filter (eligible original) pool)
                    - Z.to_nat (- limit self))%nat).
  { rewrite length_fmap, slice_to_negative_length by exact Hlimit.
    by rewrite sort_reverse_length, <- Hsnd, length_fmap. }
  split; [|exact Hlen].
  rewrite length_fmap. unfold slice_to.
  destruct (0 <=? limit self)%Z eqn:Hle; [apply Z.leb_le in Hle; lia|].
  rewrite length_take, <- fmap_app.
  set (k := (length (sort_reverse fst scored) - Z.to_nat (- limit self))%nat).
  replace (k `min` length (sort_reverse fst scored))%nat with k by lia.
  by rewrite take_drop.
Qed.

Lemma negative_limit_drops_lowest_ranked_witness :
  exists ids : list string,
    find_similar_products calculate_similarity_with_context
      (mkService (mkAdapter (fun _ _ => Ok Examples.pool)) (-1))
      Examples.reference = Ok ids
    /\ length ids = 1%nat.
Proof.
  destruct (negative_limit_drops_lowest_ranked
              calculate_similarity_with_context
              (mkService (mkAdapter (fun _ _ => Ok Examples.pool)) (-1))
              Examples.reference Examples.pool eq_refl)
    as (ids & scored & Hids & _ & _ & Hlen).
  - intros c _. apply calculate_similarity_with_context_total.
  - cbn. lia.
  - exists ids. split; [exact Hids|].
    assert (Hel : length (filter (eligible Examples.reference) Examples.pool)
                  = 2%nat).
    { unfold Examples.pool. rewrite !filter_cons.
      repeat case_decide; unfold eligible in *; cbn in *;
        (reflexivity || (exfalso; intuition (congruence || lia))). }
    rewrite Hel in Hlen. exact Hlen.
Defined.

Lemma slice_to_take_slice_to {A : Type} (l : list A) (k k' : Z) :
  (0 <= k <= k')%Z ->
  slice_to l k = take (Z.to_nat k) (slice_to l k').
Proof.
  intros [Hk Hkk']. unfold slice_to.
  rewrite (proj2 (Z.leb_le 0 k)) by exact Hk.
  rewrite (proj2 (Z.leb_le 0 k')) by lia.
  rewrite take_take. f_equal. lia.
Qed.

(** X15.  Two services over the same adapter whose limits are
    [0 <= k <= k'] agree on the ranking: the result for [k] is the first
    [k] ids of the result for [k'], for every scorer. *)
Theorem smaller_limit_returns_prefix
    (scorer : Product -> Product -> list Product -> result R)
    (adapter : EcommerceAdapter) (k k' : Z) (original : Product) :
  (0 <= k <= k')%Z ->
  exists ids ids' : list string,
    find_similar_products scorer (mkService adapter k) original = Ok ids
    /\ find_similar_products scorer (mkService adapter k') original = Ok ids'
    /\ ids = take (Z.to_nat k) ids'.
Proof.
  intros Hk.
  unfold find_similar_products, find_similar_products_body.
  cbn [ecommerce_adapter limit].
  destruct (get_products_by_category adapter (category_id original) 100)
    as [pool|e]; [|exists [], []; by rewrite take_nil].
  monad_step.
  destruct (filter (eligible original) pool) as [|c cs];
    [exists [], []; by rewrite take_nil|].
  destruct (score_candidates scorer original (c :: cs)) as [scored|e];
    [|exists [], []; by rewrite take_nil].
  monad_step. cbn [try_except].
  eexists. eexists. split; [reflexivity|]. split; [reflexivity|].
  rewrite <- fmap_take. f_equal. by apply slice_to_take_slice_to.
Qed.

Lemma smaller_limit_returns_prefix_witness :
  exists ids ids' : list string,
    find_similar_products calculate_similarity_with_context
      (mkService (mkAdapter (fun _ _ => Ok Examples.pool)) 1)
      Examples.reference = Ok ids
    /\ find_similar_products calculate_similarity_with_context
         (mkService (mkAdapter (fun _ _ => Ok Examples.pool)) 6)
         Examples.reference = Ok ids'
    /\ ids = take (Z.to_nat 1) ids'.
Proof.
  apply smaller_limit_returns_prefix. lia.
Defined.

(** ** The monad of the orchestration layer *)

Lemma io_eta {A : Type} (m : io A) : mkIO (sent m) (outcome_of m) = m.
Proof. by destruct m. Qed.

Lemma pure_step_Return_bind {A B : Type} (a : A) (k : A -> io B) :
  pure_step (Return a) ≫= k = k a.
Proof. unfold mbind, io_bind. cbn. apply io_eta. Qed.

Lemma pure_step_Throw_bind {A B : Type} (e : exception) (k : A -> io B) :
  pure_step (Throw e) ≫= k = mkIO [] (Throw e).
Proof. reflexivity. Qed.

Lemma from_result_Ok_bind {A B : Type} (a : A) (k : A -> io B) :
  from_result (Ok a) ≫= k = k a.
Proof. unfold mbind, io_bind. cbn. apply io_eta. Qed.

Lemma from_result_Raise_bind {A B : Type} (e : exn) (k : A -> io B) :
  from_result (Raise e) ≫= k = mkIO [] (Throw (Exn e)).
Proof. reflexivity. Qed.

(** ** The Klaviyo client *)

Lemma if_decide_Is_true {A : Type} (b : bool) (x y : A) :
  (if decide (Is_true b) then x else y) = if b then x else y.
Proof. destruct b; reflexivity. Qed.

Lemma without_product_dicts (product_id : string) (l : list json) :
  Forall (fun item => is_dict item) l ->
  without_product product_id l
  = Return (filter (fun item => negb (is_entry_of product_id item)) l).
Proof.
  induction 1 as [|item l Hitem _ IH]; [reflexivity|].
  cbn [without_product]. destruct item as [| | | | | |d]; try done.
  cbn [item_get]. rewrite IH, filter_cons, if_decide_Is_true.
  unfold mbind, outcome_bind, mret, outcome_ret. f_equal.
  cbn [is_entry_of].
  by destruct (d !! "product_id") as [[| | | |s| |]|].
Qed.

Lemma without_product_not_dicts (product_id : string) (l : list json) :
  ~ Forall (fun item => is_dict item) l ->
  without_product product_id l = Throw AttributeError.
Proof.
  induction l as [|item l IH]; intros Hnot; [by destruct Hnot|].
  cbn [without_product].
  destruct item as [| | | | | |d]; try reflexivity.
  cbn [item_get]. rewrite IH; [reflexivity|].
  intros Hall. apply Hnot. by constructor.
Qed.

Lemma is_entry_of_new_entry (product_id : string) (ids : list string)
    (enriched_at : string) :
  is_entry_of product_id (new_entry product_id ids enriched_at) = true.
Proof.
  unfold is_entry_of, new_entry. rewrite lookup_insert_eq.
  apply String.eqb_refl.
Qed.

Lemma filter_filter_negb {A : Type} (f : A -> bool) (l : list A) :
  filter (fun x => f x) (filter (fun x => negb (f x)) l) = [].
Proof.
  induction l as [|x l IH]; [reflexivity|].
  rewrite (filter_cons (fun x => negb (f x))), if_decide_Is_true.
  destruct (f x) eqn:Hfx; cbn [negb]; [exact IH|].
  rewrite filter_cons, if_decide_Is_true, Hfx. exact IH.
Qed.

Lemma filter_negb_idemp {A : Type} (f : A -> bool) (l : list A) :
  filter (fun x => negb (f x)) (filter (fun x => negb (f x)) l)
  = filter (fun x => negb (f x)) l.
Proof.
  induction l as [|x l IH]; [reflexivity|].
  rewrite (filter_cons (fun x => negb (f x))), if_decide_Is_true.
  destruct (f x) eqn:Hfx; cbn [negb]; [exact IH|].
  rewrite filter_cons, if_decide_Is_true, Hfx. cbn [negb]. by rewrite IH.
Qed.

(** X16.  [add_similar_products], for an email that has a profile whose
    stored entries are all objects, sends one update of that profile.  The
    array it sets holds exactly one entry for [product_id], the new one, in
    last place, and the stored entries of every other product, in their
    order.  When a stored entry is not an object, [AttributeError] is
    raised and nothing is sent. *)
Theorem add_similar_products_keeps_one_entry_per_product
    (self : KlaviyoClient) (email product_id : string)
    (similar_product_ids : list string) (enriched_at profile_id : string) :
  get_profile_id_by_email self email = Return (Some profile_id) ->
  profile_id <> "" ->
  (Forall (fun item => is_dict item)
          (_get_similar_products_array self profile_id) ->
   exists entries : list json,
     add_similar_products self email product_id similar_product_ids
       enriched_at
     = update_profile_properties self profile_id
         {[ "bis_similar_products" := JList entries ]}
     /\ last entries
        = Some (new_entry product_id similar_product_ids enriched_at)
     /\ filter (fun item => is_entry_of product_id item) entries
        = [new_entry product_id similar_product_ids enriched_at]
     /\ filter (fun item => negb (is_entry_of product_id item)) entries
        = filter (fun item => negb (is_entry_of product_id item))
                 (_get_similar_products_array self profile_id))
  /\ (~ Forall (fun item => is_dict item)
               (_get_similar_products_array self profile_id) ->
      add_similar_products self email product_id similar_product_ids
        enriched_at
      = mkIO [] (Throw AttributeError)).
Proof.
  intros Hprofile Hne.
  assert (Htruthy : truthy_str (Some profile_id) = true).
  { cbn. by apply negb_true_iff, String.eqb_neq. }
  unfold add_similar_products.
  rewrite Hprofile, pure_step_Return_bind, Htruthy.
  cbn [negb str_of default]. unfold Datatypes.id.
  split.
  - intros Hdicts.
    rewrite (without_product_dicts _ _ Hdicts), pure_step_Return_bind.
    eexists. split; [reflexivity|].
    split; [apply last_snoc|].
    rewrite !filter_app, filter_filter_negb, filter_negb_idemp.
    rewrite !filter_cons, !filter_nil, !if_decide_Is_true.
    rewrite is_entry_of_new_entry. cbn [negb].
    split; [reflexivity | by rewrite app_nil_r].
  - intros Hnot.
    by rewrite (without_product_not_dicts _ _ Hnot), pure_step_Throw_bind.
Qed.

Lemma add_similar_products_keeps_one_entry_per_product_witness :
  exists entries : list json,
    add_similar_products KlaviyoExamples.client "a@example.com" "4422"
      ["15655"; "11773"] "2025-10-31T09:00:00Z"
    = update_profile_properties KlaviyoExamples.client "01PROFILE"
        {[ "bis_similar_products" := JList entries ]}
    /\ last entries
       = Some (new_entry "4422" ["15655"; "11773"] "2025-10-31T09:00:00Z").
Proof.
  destruct (add_similar_products_keeps_one_entry_per_product
              KlaviyoExamples.client "a@example.com" "4422"
              ["15655"; "11773"] "2025-10-31T09:00:00Z" "01PROFILE"
              eq_refl ltac:(discriminate)) as [Hok _].
  destruct Hok as (entries & Hadd & Hlast & _).
  - repeat constructor.
  - by exists entries.
Defined.

(** X17.  [remove_similar_products] with a product id, for an email that
    has a profile whose stored entries are all objects, sends one update of
    that profile: it sets the array to the stored entries of the other
    products, in their order, and to [None], never to an empty array, when
    no such entry is left. *)
Theorem remove_similar_products_never_sends_empty_array
    (self : KlaviyoClient) (email product_id profile_id : string) :
  get_profile_id_by_email self email = Return (Some profile_id) ->
  profile_id <> "" ->
  Forall (fun item => is_dict item)
         (_get_similar_products_array self profile_id) ->
  exists (value : json) (kept : list json),
    remove_similar_products self email (Some product_id)
    = update_profile_properties self profile_id
        {[ "bis_similar_products" := value ]}
    /\ kept = filter (fun item => negb (is_entry_of product_id item))
                     (_get_similar_products_array self profile_id)
    /\ ((kept = [] /\ value = JNull) \/ (kept <> [] /\ value = JList kept)).
Proof.
  intros Hprofile Hne Hdicts.
  assert (Htruthy : truthy_str (Some profile_id) = true).
  { cbn. by apply negb_true_iff, String.eqb_neq. }
  unfold remove_similar_products.
  rewrite Hprofile, pure_step_Return_bind, Htruthy.
  cbn [negb str_of default]. unfold Datatypes.id.
  rewrite (without_product_dicts _ _ Hdicts), pure_step_Return_bind.
  set (kept := filter _ _).
  case_decide as Hlen.
  - exists JNull, kept. split; [reflexivity|]. split; [reflexivity|].
    left. split; [by apply length_zero_iff_nil | reflexivity].
  - exists (JList kept), kept. split; [reflexivity|]. split; [reflexivity|].
    right. split; [|reflexivity]. intros Hnil. by rewrite Hnil in Hlen.
Qed.

Lemma remove_similar_products_never_sends_empty_array_witness :
  exists (value : json) (kept : list json),
    remove_similar_products KlaviyoExamples.client "a@example.com"
      (Some "4422")
    = update_profile_properties KlaviyoExamples.client "01PROFILE"
        {[ "bis_similar_products" := value ]}
    /\ kept = filter (fun item => negb (is_entry_of "4422" item))
                     KlaviyoExamples.stored
    /\ ((kept = [] /\ value = JNull) \/ (kept <> [] /\ value = JList kept)).
Proof.
  apply (remove_similar_products_never_sends_empty_array
           KlaviyoExamples.client "a@example.com" "4422" "01PROFILE"
           eq_refl).
  - discriminate.
  - repeat constructor.
Defined.

Lemma update_profile_properties_sent (self : KlaviyoClient)
    (profile_id : string) (properties : gmap string json) :
  exists req, sent (update_profile_properties self profile_id properties)
              = [req].
Proof. by eexists. Qed.

(** How [add_similar_products] ends: it raises before anything is sent, or
    it is one update of a profile. *)
Lemma add_similar_products_cases (self : KlaviyoClient)
    (email product_id : string) (similar_product_ids : list string)
    (enriched_at : string) :
  (exists e, add_similar_products self email product_id similar_product_ids
               enriched_at = mkIO [] (Throw e))
  \/ (exists profile_id others,
        add_similar_products self email product_id similar_product_ids
          enriched_at
        = update_profile_properties self profile_id
            {[ "bis_similar_products" :=
                 JList (others ++ [new_entry product_id similar_product_ids
                                     enriched_at]) ]}
        /\ Forall (fun item => negb (is_entry_of product_id item)) others).
Proof.
  unfold add_similar_products.
  destruct (get_profile_id_by_email self email) as [profile_id|e];
    [|left; by exists e].
  rewrite pure_step_Return_bind.
  destruct (truthy_str profile_id); cbn [negb]; [|left; by eexists].
  destruct (decide (Forall (fun item => is_dict item)
                      (_get_similar_products_array self (str_of profile_id))))
    as [Hdicts|Hnot].
  - right. rewrite (without_product_dicts _ _ Hdicts), pure_step_Return_bind.
    eexists. eexists. split; [reflexivity|].
    apply Forall_forall. intros item Hitem.
    by apply list_elem_of_filter in Hitem as [? _].
  - left. rewrite (without_product_not_dicts _ _ Hnot), pure_step_Throw_bind.
    by eexists.
Qed.

(** ** The service *)



Section ServiceProperties.

Variable scorer : Product -> Product -> list Product -> result R.
Variable str : exception -> string.

(** How [enrich_profile] ends. *)
Lemma enrich_profile_cases (self : Orchestrator)
    (email product_id now : string) :
  (exists msg,
      enrich_profile scorer str self email product_id now
      = mkIO [] (Return (mkEnrichResult false 0 (Some msg))))
  \/ (exists p,
        get_product self product_id = Ok (Some p)
        /\ find_similar_products scorer (ranker self) p = Ok []
        /\ enrich_profile scorer str self email product_id now
           = mkIO [] (Return (mkEnrichResult true 0 None)))
  \/ (exists p ids profile_id others req,
        get_product self product_id = Ok (Some p)
        /\ find_similar_products scorer (ranker self) p = Ok ids
        /\ ids <> []
        /\ Forall (fun item => negb (is_entry_of product_id item)) others
        /\ sent (update_profile_properties (klaviyo_client self) profile_id
                   {[ "bis_similar_products" :=
                        JList (others ++ [new_entry product_id ids
                                            (now ++ "Z")]) ]})
           = [req]
        /\ ((exists msg,
               enrich_profile scorer str self email product_id now
               = mkIO [req] (Return (mkEnrichResult false 0 (Some msg))))
            \/ enrich_profile scorer str self email product_id now
               = mkIO [req]
                      (Return (mkEnrichResult true (length ids) None)))).
Proof.
  unfold enrich_profile, enrich_profile_body.
  destruct (get_product self product_id) as [[p|]|e] eqn:Hp.
  - rewrite from_result_Ok_bind.
    destruct (find_similar_products_outcome scorer (ranker self) p)
      as (ids & Hids & _).
    rewrite Hids, from_result_Ok_bind.
    destruct ids as [|i ids].
    + right. left. exists p. rewrite decide_False by (cbn; lia).
      split; [reflexivity|]. split; [exact Hids | reflexivity].
    + rewrite decide_True by (cbn; lia).
      destruct (add_similar_products_cases (klaviyo_client self) email
                  product_id (i :: ids) (now ++ "Z"))
        as [[e ->]|(profile_id & others & -> & Hothers)].
      * left. by eexists.
      * right. right.
        exists p, (i :: ids), profile_id, others. eexists.
        split; [reflexivity|]. split; [exact Hids|]. split; [done|].
        split; [exact Hothers|]. split; [reflexivity|].
        unfold update_profile_properties.
        destruct (session_patch _ _ _) as [e|]; [left; by eexists | by right].
  - left. by eexists.
  - left. by eexists.
Qed.

End ServiceProperties.


(** X19.  A failure of the category request does not surface: when the
    product is found and [get_products_by_category] raises,
    [enrich_profile] reports success with no similar product and sends
    nothing to Klaviyo. *)
Theorem enrich_profile_hides_category_failure
    (scorer : Product -> Product -> list Product -> result R)
    (str : exception -> string) (self : Orchestrator)
    (email product_id now : string) (p : Product) (e : exn) :
  get_product self product_id = Ok (Some p) ->
  get_products_by_category (ecommerce_adapter (ranker self))
    (category_id p) 100 = Raise e ->
  enrich_profile scorer str self email product_id now
  = mkIO [] (Return (mkEnrichResult true 0 None)).
Proof.
  intros Hp Hfetch.
  assert (Hids : find_similar_products scorer (ranker self) p = Ok []).
  { unfold find_similar_products, find_similar_products_body.
    by rewrite Hfetch. }
  unfold enrich_profile, enrich_profile_body.
  by rewrite Hp, from_result_Ok_bind, Hids, from_result_Ok_bind.
Qed.

Lemma enrich_profile_hides_category_failure_witness :
  enrich_profile calculate_similarity_with_context ServiceExamples.str
    ServiceExamples.broken_category "a@example.com" "X"
    "2025-10-31T09:00:00"
  = mkIO [] (Return (mkEnrichResult true 0 None)).
Proof.
  by apply (enrich_profile_hides_category_failure
              calculate_similarity_with_context ServiceExamples.str
              ServiceExamples.broken_category "a@example.com" "X"
              "2025-10-31T09:00:00" Examples.reference
              (EcommerceAPIError "timeout")).
Defined.

(** X20.  Every request that [enrich_profile] sends is an update of a
    profile whose array ends with the entry of [product_id]; the ids in
    that entry are ids of products of the category of the product found
    that are in stock and are not that product, and there is at least one.
    No other entry of the array belongs to [product_id]. *)
Theorem enrich_profile_writes_only_eligible_ids
    (scorer : Product -> Product -> list Product -> result R)
    (str : exception -> string) (self : Orchestrator)
    (email product_id now : string) (req : Request) :
  req ∈ sent (enrich_profile scorer str self email product_id now) ->
  exists (p : Product) (pool : list Product) (profile_id : string)
         (others : list json) (ids : list string),
    get_product self product_id = Ok (Some p)
    /\ get_products_by_category (ecommerce_adapter (ranker self))
         (category_id p) 100 = Ok pool
    /\ sent (update_profile_properties (klaviyo_client self) profile_id
               {[ "bis_similar_products" :=
                    JList (others ++ [new_entry product_id ids
                                        (now ++ "Z")]) ]})
       = [req]
    /\ ids <> []
    /\ Forall (fun i => exists c, c ∈ pool /\ eligible p c /\ id c = i) ids
    /\ Forall (fun item => negb (is_entry_of product_id item)) others.
Proof.
  intros Hreq.
  destruct (enrich_profile_cases scorer str self email product_id now)
    as [[msg Heq]|[(p & _ & _ & Heq)
                  |(p & ids & pid & others & req' & Hp & Hids & Hne & Hothers
                    & Hsent & Heq)]].
  - rewrite Heq in Hreq. by inversion Hreq.
  - rewrite Heq in Hreq. by inversion Hreq.
  - assert (req = req') as ->.
    { destruct Heq as [[msg Heq]|Heq]; rewrite Heq in Hreq;
        by apply list_elem_of_singleton in Hreq. }
    destruct (find_similar_products_outcome scorer (ranker self) p)
      as (ids' & Hids' & Hout).
    rewrite Hids in Hids'. injection Hids' as <-.
    destruct Hout as [e _ ->|pool _ _ ->|pool scored Hfetch _ Hscored Heqids];
      [done | done |].
    exists p, pool, pid, others, ids.
    split; [exact Hp|]. split; [exact Hfetch|]. split; [exact Hsent|].
    split; [exact Hne|]. split; [|exact Hothers].
    apply Forall_forall. intros i Hi. rewrite Heqids in Hi.
    by apply (ranked_ids_eligible scorer p pool scored (limit (ranker self))).
Qed.

Lemma enrich_profile_writes_only_eligible_ids_witness :
  exists (req : Request) (p : Product) (pool : list Product)
         (profile_id : string) (others : list json) (ids : list string),
    get_product ServiceExamples.orchestrator "X" = Ok (Some p)
    /\ get_products_by_category
         (ecommerce_adapter (ranker ServiceExamples.orchestrator))
         (category_id p) 100 = Ok pool
    /\ sent (update_profile_properties
               (klaviyo_client ServiceExamples.orchestrator) profile_id
               {[ "bis_similar_products" :=
                    JList (others ++ [new_entry "X" ids
                                        ("2025-10-31T09:00:00" ++ "Z")]) ]})
       = [req]
    /\ ids <> []
    /\ Forall (fun i => exists c, c ∈ pool /\ eligible p c /\ id c = i) ids
    /\ Forall (fun item => negb (is_entry_of "X" item)) others.
Proof.
  assert (Hsent : exists req,
             req ∈ sent (enrich_profile calculate_similarity_with_context
                           ServiceExamples.str ServiceExamples.orchestrator
                           "a@example.com" "X" "2025-10-31T09:00:00")).
  { unfold enrich_profile, enrich_profile_body.
    cbn [get_product ranker klaviyo_client ServiceExamples.orchestrator].
    rewrite from_result_Ok_bind, end_to_end_ranking, from_result_Ok_bind.
    rewrite decide_True by (cbn; lia).
    eexists. vm_compute. left. }
  destruct Hsent as [req Hreq]. exists req.
  exact (enrich_profile_writes_only_eligible_ids
           calculate_similarity_with_context ServiceExamples.str
           ServiceExamples.orchestrator "a@example.com" "X"
           "2025-10-31T09:00:00" req Hreq).
Defined.

(** X21.  [cleanup_profile] reports success for an email that has no
    profile, although [remove_similar_products] returns [False] and nothing
    is sent to Klaviyo. *)
Theorem cleanup_profile_succeeds_without_profile
    (self : Orchestrator) (email : string) (product_id : option string)
    (profile_id : option string) :
  get_profile_id_by_email (klaviyo_client self) email = Return profile_id ->
  truthy_str profile_id = false ->
  remove_similar_products (klaviyo_client self) email product_id
  = mkIO [] (Return false)
  /\ cleanup_profile self email product_id = mkIO [] (Return true).
Proof.
  intros Hprofile Hfalsy.
  assert (Hremove : remove_similar_products (klaviyo_client self) email
                      product_id = mkIO [] (Return false)).
  { unfold remove_similar_products.
    by rewrite Hprofile, pure_step_Return_bind, Hfalsy. }
  split; [exact Hremove|].
  unfold cleanup_profile. by rewrite Hremove.
Qed.

Lemma cleanup_profile_succeeds_without_profile_witness :
  remove_similar_products KlaviyoExamples.no_profile "a@example.com"
    (Some "4422")
  = mkIO [] (Return false)
  /\ cleanup_profile ServiceExamples.unknown_email "a@example.com"
       (Some "4422")
     = mkIO [] (Return true).
Proof.
  by apply (cleanup_profile_succeeds_without_profile
              ServiceExamples.unknown_email "a@example.com" (Some "4422")
              None).
Defined.

(** ** Round trip through the stored array *)

Lemma JDict_inj (d d' : gmap string json) : JDict d = JDict d' -> d = d'.
Proof. by injection 1. Qed.

Lemma lookup_eq_inv (m m' : gmap string json) (k : string) (v v' : json) :
  m = m' -> m !! k = Some v -> m' !! k = Some v' -> v = v'.
Proof. intros -> Hv Hv'. rewrite Hv in Hv'. by injection Hv'. Qed.

Lemma update_profile_properties_inj (self : KlaviyoClient)
    (profile_id profile_id' : string) (value value' : json) :
  update_profile_properties self profile_id
    {[ "bis_similar_products" := value ]}
  = update_profile_properties self profile_id'
      {[ "bis_similar_products" := value' ]} ->
  value = value'.
Proof.
  unfold update_profile_properties. intros Heq.
  apply (f_equal (fun m => payload <$> head (sent m))) in Heq.
  cbn [sent head fmap option_fmap option_map payload] in Heq.
  apply (inj Some), JDict_inj in Heq.
  eapply lookup_eq_inv in Heq; [|apply lookup_singleton_eq..].
  apply JDict_inj in Heq.
  eapply (lookup_eq_inv _ _ "attributes") in Heq;
    [|by rewrite !lookup_insert_ne, lookup_singleton_eq..].
  apply JDict_inj in Heq.
  eapply lookup_eq_inv in Heq; [|apply lookup_singleton_eq..].
  apply JDict_inj in Heq.
  eapply lookup_eq_inv in Heq; [|apply lookup_singleton_eq..].
  exact Heq.
Qed.

Lemma is_dict_new_entry (product_id : string) (ids : list string)
    (enriched_at : string) :
  is_dict (new_entry product_id ids enriched_at).
Proof. done. Qed.

(** X22.  Adding and then removing the entry of a product leaves the
    entries of the other products: when the profile's stored entries are
    all objects and the array that [add_similar_products] set is the one
    stored afterwards, [remove_similar_products] for the same product sets
    the array to the entries stored before the addition that belong to
    other products, or to [None] when there is none. *)
Theorem add_then_remove_restores_other_entries
    (before after : KlaviyoClient) (email product_id : string)
    (similar_product_ids : list string) (enriched_at profile_id : string) :
  get_profile_id_by_email before email = Return (Some profile_id) ->
  get_profile_id_by_email after email = Return (Some profile_id) ->
  profile_id <> "" ->
  Forall (fun item => is_dict item)
         (_get_similar_products_array before profile_id) ->
  add_similar_products before email product_id similar_product_ids
    enriched_at
  = update_profile_properties before profile_id
      {[ "bis_similar_products" :=
           JList (_get_similar_products_array after profile_id) ]} ->
  exists (value : json) (kept : list json),
    remove_similar_products after email (Some product_id)
    = update_profile_properties after profile_id
        {[ "bis_similar_products" := value ]}
    /\ kept = filter (fun item => negb (is_entry_of product_id item))
                     (_get_similar_products_array before profile_id)
    /\ ((kept = [] /\ value = JNull) \/ (kept <> [] /\ value = JList kept)).
Proof.
  intros Hbefore Hafter Hne Hdicts Hadd.
  assert (Htruthy : truthy_str (Some profile_id) = true).
  { cbn. by apply negb_true_iff, String.eqb_neq. }
  assert (Hstored : _get_similar_products_array after profile_id
                    = (filter (fun item => negb (is_entry_of product_id item))
                              (_get_similar_products_array before profile_id)
                       ++ [new_entry product_id similar_product_ids
                             enriched_at])%list).
  { revert Hadd. unfold add_similar_products.
    rewrite Hbefore, pure_step_Return_bind, Htruthy.
    cbn [negb str_of default]. unfold Datatypes.id.
    rewrite (without_product_dicts _ _ Hdicts), pure_step_Return_bind.
    intros Hadd. apply update_profile_properties_inj in Hadd.
    by injection Hadd. }
  assert (Hdicts' : Forall (fun item => is_dict item)
                           (_get_similar_products_array after profile_id)).
  { rewrite Hstored. apply Forall_app. split.
    - apply Forall_forall. intros item Hitem.
      apply list_elem_of_filter in Hitem as [_ Hitem].
      by apply (proj1 (Forall_forall _ _) Hdicts).
    - repeat constructor. }
  unfold remove_similar_products.
  rewrite Hafter, pure_step_Return_bind, Htruthy.
  cbn [negb str_of default]. unfold Datatypes.id.
  rewrite (without_product_dicts _ _ Hdicts'), pure_step_Return_bind.
  rewrite Hstored, filter_app, filter_negb_idemp.
  rewrite filter_cons, filter_nil, if_decide_Is_true, is_entry_of_new_entry.
  cbn [negb]. rewrite app_nil_r.
  set (kept := filter _ _).
  case_decide as Hlen.
  - exists JNull, kept. split; [reflexivity|]. split; [reflexivity|].
    left. split; [by apply length_zero_iff_nil | reflexivity].
  - exists (JList kept), kept. split; [reflexivity|]. split; [reflexivity|].
    right. split; [|reflexivity]. intros Hnil. by rewrite Hnil in Hlen.
Qed.

Lemma add_then_remove_restores_other_entries_witness :
  exists (value : json) (kept : list json),
    remove_similar_products KlaviyoExamples.client_after "a@example.com"
      (Some "4422")
    = update_profile_properties KlaviyoExamples.client_after "01PROFILE"
        {[ "bis_similar_products" := value ]}
    /\ kept = filter (fun item => negb (is_entry_of "4422" item))
                     KlaviyoExamples.stored
    /\ ((kept = [] /\ value = JNull) \/ (kept <> [] /\ value = JList kept)).
Proof.
  apply (add_then_remove_restores_other_entries
           KlaviyoExamples.client KlaviyoExamples.client_after
           "a@example.com" "4422" ["15655"; "11773"] "2025-10-31T09:00:00Z"
           "01PROFILE" eq_refl eq_refl).
  - discriminate.
  - repeat constructor.
  - vm_compute. reflexivity.
Defined.

(** ** Enrichment for an email without a profile *)

(** X23.  When similar products are found but the email has no profile,
    [enrich_profile] issues no request and reports the failure: no
    success, count 0, and as error the text of the [KlaviyoAPIError] that
    names the email. *)
Theorem enrich_profile_reports_missing_profile
    (scorer : Product -> Product -> list Product -> result R)
    (str : exception -> string) (self : Orchestrator)
    (email product_id now : string) (p : Product) (ids : list string)
    (profile_id : option string) :
  get_product self product_id = Ok (Some p) ->
  find_similar_products scorer (ranker self) p = Ok ids ->
  ids <> [] ->
  get_profile_id_by_email (klaviyo_client self) email = Return profile_id ->
  truthy_str profile_id = false ->
  enrich_profile scorer str self email product_id now
  = mkIO [] (Return (mkEnrichResult false 0
                       (Some (str (KlaviyoAPIError
                                     ("Profile not found for email: "
                                      ++ email)))))).
Proof.
  intros Hp Hids Hne Hprofile Hfalsy.
  unfold enrich_profile, enrich_profile_body.
  rewrite Hp, from_result_Ok_bind, Hids, from_result_Ok_bind.
  rewrite decide_True by (destruct ids; [done | cbn; lia]).
  unfold add_similar_products.
  by rewrite Hprofile, pure_step_Return_bind, Hfalsy.
Qed.

Lemma enrich_profile_reports_missing_profile_witness :
  enrich_profile calculate_similarity_with_context ServiceExamples.str
    ServiceExamples.unknown_email "a@example.com" "X" "2025-10-31T09:00:00"
  = mkIO [] (Return (mkEnrichResult false 0
                       (Some "Profile not found for email: a@example.com"))).
Proof.
  apply (enrich_profile_reports_missing_profile
           calculate_similarity_with_context ServiceExamples.str
           ServiceExamples.unknown_email "a@example.com" "X"
           "2025-10-31T09:00:00" EndToEnd.reference ["1"; "2"] None
           eq_refl end_to_end_ranking).
  - discriminate.
  - reflexivity.
  - reflexivity.
Defined.

(** ** The webhook secret *)

(** X24.  [validate_webhook_secret] accepts a token exactly when it is
    present, not empty, made of ASCII characters and equal to the
    configured secret.  With an empty configured secret, the default when
    the variable is not set, no token is accepted. *)
Theorem webhook_secret_accepts_only_the_configured_secret
    (WEBHOOK_SECRET : string) (provided_token : option string) :
  (validate_webhook_secret WEBHOOK_SECRET provided_token = Return true
   <-> provided_token = Some WEBHOOK_SECRET
       /\ WEBHOOK_SECRET <> ""
       /\ is_ascii_str WEBHOOK_SECRET = true)
  /\ validate_webhook_secret "" provided_token <> Return true.
Proof.
  assert (Hiff : forall secret,
             validate_webhook_secret secret provided_token = Return true
             <-> provided_token = Some secret /\ secret <> ""
                 /\ is_ascii_str secret = true).
  { intros secret. unfold validate_webhook_secret, compare_digest.
    destruct provided_token as [token|]; cbn [truthy_str negb str_of default];
      [|split; [discriminate | by intros [? _]]].
    unfold Datatypes.id.
    destruct (String.eqb token "") eqn:Hempty; cbn [negb].
    - apply String.eqb_eq in Hempty as ->.
      split; [discriminate|]. intros [Heq [Hne _]]. congruence.
    - apply String.eqb_neq in Hempty.
      destruct (is_ascii_str token) eqn:Htoken; cbn [andb].
      + destruct (is_ascii_str secret) eqn:Hsecret.
        * destruct (String.eqb token secret) eqn:Heq.
          -- apply String.eqb_eq in Heq as ->. by split.
          -- apply String.eqb_neq in Heq. split; [discriminate|].
             intros [Hsome _]. congruence.
        * split; [discriminate|]. intros (_ & _ & ?). discriminate.
      + split; [discriminate|]. intros (Hsome & _ & Hascii).
        injection Hsome as ->. congruence. }
  split; [apply Hiff|].
  intros Htrue. apply Hiff in Htrue as (_ & Hne & _). done.
Qed.
